(** * GridWorldEnv: a shallow embedding of [Extra Files/RL_Agent/env.py]

    The environment is a Python class whose methods mutate [self].  Each
    method is embedded as a function from the state before the call to the
    state after it, paired with what the method returns.  Python [int]s are
    [Z], Python [float]s are the kernel's binary64 numbers ([PrimFloat]),
    the list [self.redspots] of [(x, y)] tuples is a [list (Z * Z)] in
    append order, and the [info] dictionary, which always has the same four
    keys, is a record. *)

From Stdlib Require Import ZArith List Bool Lia String.
From Stdlib Require Import Floats.
Import ListNotations.

Set Warnings "-inexact-float".
Local Open Scope Z_scope.

(** ** Python primitives used by the source *)

Module Py.

(** What a call does: it returns a value or raises an exception. *)
Inductive outcome (A : Type) : Type :=
| Returned (a : A)
| Raised (exc : string).
Arguments Returned {A} a.
Arguments Raised {A} exc.

(** [range(a, b)] *)
Definition range (a b : Z) : list Z :=
  map (fun i => a + Z.of_nat i) (seq 0 (Z.to_nat (b - a))).

(** [float(n)] for an [int]: the nearest binary64 number.  (Python raises
    [OverflowError] beyond the binary64 range; the source converts grid
    coordinates and loop counters only.) *)
Definition float_of_int (n : Z) : float :=
  SF2Prim (binary_normalize prec emax n 0 false).

(** [max(a, b)] on floats: the first argument unless the second is
    strictly greater. *)
Definition fmax (a b : float) : float :=
  if PrimFloat.ltb a b then b else a.

(** Equality of two [(int, int)] tuples. *)
Definition tuple_eqb (p q : Z * Z) : bool :=
  (fst p =? fst q) && (snd p =? snd q).

(** [p in l] for a list of tuples. *)
Definition contains (l : list (Z * Z)) (p : Z * Z) : bool :=
  existsb (tuple_eqb p) l.

(** [np.array(l, dtype=np.float32)] keeps the length and rounds every
    entry to the nearest binary32 number (24-bit significand). *)
Definition float32 (f : float) : float :=
  match Prim2SF f with
  | S754_finite s m e =>
      SF2Prim (binary_normalize 24 128 (if s then Z.neg m else Z.pos m) e s)
  | _ => f
  end.

Definition array_float32 (l : list float) : list float := map float32 l.

End Py.

Import Py.

(** ** Actions *)

Definition UP : Z := 0.
Definition DOWN : Z := 1.
Definition LEFT : Z := 2.
Definition RIGHT : Z := 3.
Definition STAY : Z := 4.

(** [ACTION_NAMES.get(action, "UNKNOWN")] *)
Definition ACTION_NAMES_get (action : Z) : string :=
  if action =? UP then "UP"
  else if action =? DOWN then "DOWN"
  else if action =? LEFT then "LEFT"
  else if action =? RIGHT then "RIGHT"
  else if action =? STAY then "STAY"
  else "UNKNOWN".

(** ** The environment object *)

Record GridWorldEnv : Type := mkEnv {
  grid_dimensions : Z * Z;
  max_steps : Z;
  total_steps : Z;
  use_coppeliasim : bool;
  simulation_mode : bool;
  redspots : list (Z * Z);
  goal : Z * Z;
  x : Z;
  y : Z;
  init_loc : Z * Z;
  current_location : Z * Z
}.

(** The simulator blocks of [step] and [reset] run only under this test. *)
Definition coppelia_active (self : GridWorldEnv) : bool :=
  use_coppeliasim self && negb (simulation_mode self).

Definition manhattan (p q : Z * Z) : Z :=
  Z.abs (fst p - fst q) + Z.abs (snd p - snd q).

(** ** Observation encoder: [get_observation] *)

Definition cell_color (self : GridWorldEnv) (p : Z * Z) : float :=
  if contains (redspots self) p then 1.0%float
  else if tuple_eqb p (goal self) then 2.0%float
  else 0.0%float.

(** The world cell seen at offset [(dx, dy)]: clamped to the grid. *)
Definition vision_cell (self : GridWorldEnv) (dx dy : Z) : Z * Z :=
  let '(agent_x, agent_y) := current_location self in
  let x_pos := Z.max 0 (Z.min (fst (grid_dimensions self) - 1) (agent_x + dx)) in
  let y_pos := Z.max 0 (Z.min (snd (grid_dimensions self) - 1) (agent_y + dy)) in
  (x_pos, y_pos).

Definition get_observation (self : GridWorldEnv) : list float :=
  let '(agent_x, agent_y) := current_location self in
  let visible_colors :=
    flat_map (fun dy =>
      map (fun dx => cell_color self (vision_cell self dx dy)) (range (-2) 3))
      (range (-2) 3) in
  let '(goal_x, goal_y) := goal self in
  let coordinates_info :=
    [float_of_int agent_x; float_of_int agent_y;
     float_of_int goal_x; float_of_int goal_y] in
  visible_colors ++ coordinates_info.

(** ** Obstacle proximity: [calculate_obstacle_proximity] *)

(** [min_distance] starts as [float('inf')], here [None], and is then an
    [int]; [min(min_distance, distance)] keeps the first argument unless
    the second is strictly smaller. *)
Definition min_with (min_distance : option Z) (distance : Z) : option Z :=
  match min_distance with
  | None => Some distance
  | Some m => if distance <? m then Some distance else Some m
  end.

(** The body of the inner loop for one offset. *)
Definition proximity_visit (self : GridWorldEnv) (dx dy : Z)
    (min_distance : option Z) : option Z :=
  let '(agent_x, agent_y) := current_location self in
  let x_pos := agent_x + dx in
  let y_pos := agent_y + dy in
  if (x_pos <? 0) || (x_pos >=? fst (grid_dimensions self))
     || (y_pos <? 0) || (y_pos >=? snd (grid_dimensions self))
  then min_distance
  else if contains (redspots self) (x_pos, y_pos)
       then min_with min_distance (Z.abs dx + Z.abs dy)
       else min_distance.

(** The two nested loops over [range(-4, 5)]. *)
Definition nearest_in_window (self : GridWorldEnv) : option Z :=
  fold_left (fun md dx =>
    fold_left (fun md' dy => proximity_visit self dx dy md') (range (-4) 5) md)
    (range (-4) 5) None.

Definition proximity_of_distance (min_distance : Z) : float :=
  fmax 0.0 (1.0 - float_of_int min_distance * 0.2)%float.

Definition calculate_obstacle_proximity (self : GridWorldEnv) : float :=
  match nearest_in_window self with
  | None => 0.0%float
  | Some min_distance => proximity_of_distance min_distance
  end.

(** ** The external simulator

    [sim] is a module-level object of the source.  Its calls only matter
    inside the blocks guarded by [use_coppeliasim and not simulation_mode];
    what such a block does to the fields modelled here is taken from the
    simulator: the block of [step] touches the control points and can only
    set [simulation_mode] when one of its calls raises, the block of
    [reset] may re-create the whole layout. *)

Record Simulator : Type := mkSim {
  step_block_fails : GridWorldEnv -> bool;
  reset_block : GridWorldEnv -> GridWorldEnv
}.

(** ** Episode dynamics: [step] *)

Record Info : Type := mkInfo {
  manhattan_distance : Z;
  action_name : string;
  manhattan_improvement : Z;
  obstacle_proximity : float
}.

(** [(observation, reward, done, info)] *)
Definition StepReturn : Type := (list float * float * bool * Info)%type.

Definition observation_of (r : StepReturn) : list float := fst (fst (fst r)).
Definition reward_of (r : StepReturn) : float := snd (fst (fst r)).
Definition done_of (r : StepReturn) : bool := snd (fst r).
Definition info_of (r : StepReturn) : Info := snd r.

(** The position update of lines 488-504: an [if]/[elif] chain with no
    final [else]. *)
Definition move (self : GridWorldEnv) (action : Z) : Z * Z :=
  if action =? UP then (x self, Z.max 0 (y self - 1))
  else if action =? DOWN
       then (x self, Z.min (snd (grid_dimensions self) - 1) (y self + 1))
  else if action =? LEFT then (Z.max 0 (x self - 1), y self)
  else if action =? RIGHT
       then (Z.min (fst (grid_dimensions self) - 1) (x self + 1), y self)
  else (x self, y self).

(** The state after the counter, the position and the simulator block. *)
Definition advance (sim : Simulator) (self : GridWorldEnv) (action : Z)
    : GridWorldEnv :=
  let '(new_x, new_y) := move self action in
  let moved :=
    mkEnv (grid_dimensions self) (max_steps self) (total_steps self + 1)
          (use_coppeliasim self) (simulation_mode self)
          (redspots self) (goal self) new_x new_y (init_loc self)
          (new_x, new_y) in
  if coppelia_active moved && step_block_fails sim moved
  then mkEnv (grid_dimensions moved) (max_steps moved) (total_steps moved)
             (use_coppeliasim moved) true
             (redspots moved) (goal moved) (x moved) (y moved)
             (init_loc moved) (current_location moved)
  else moved.

(** The wall test of lines 598-601; it reads the position after the move. *)
Definition hits_wall (self : GridWorldEnv) (action : Z) : bool :=
  ((action =? UP) && (y self =? 0))
  || ((action =? DOWN) && (y self =? snd (grid_dimensions self) - 1))
  || ((action =? LEFT) && (x self =? 0))
  || ((action =? RIGHT) && (x self =? fst (grid_dimensions self) - 1)).

(** The [else] branch of the reward rule, lines 583-602. *)
Definition shaping_reward (old_manhattan new_manhattan : Z)
    (proximity : float) (wall : bool) : float :=
  let reward :=
    if new_manhattan <? old_manhattan then 0.1%float
    else if new_manhattan >? old_manhattan then (-0.1)%float
    else (-0.05)%float in
  let obstacle_penalty := ((- proximity) * 0.3)%float in
  let reward := (reward + obstacle_penalty)%float in
  if wall then (reward - 0.2)%float else reward.

(** Lines 569-602: the goal rule, then the obstacle rule, then shaping. *)
Definition score (self : GridWorldEnv) (action : Z)
    (old_manhattan new_manhattan : Z) (proximity : float) : float * bool :=
  let new_position := current_location self in
  if tuple_eqb new_position (goal self) then (1.0%float, true)
  else if contains (redspots self) new_position then ((-20.0)%float, true)
  else (shaping_reward old_manhattan new_manhattan proximity
          (hits_wall self action), false).

(** The body of the [try] block.  With an [int] action and a state of the
    type above none of its statements raises. *)
Definition step_try (sim : Simulator) (self : GridWorldEnv) (action : Z)
    : GridWorldEnv * outcome StepReturn :=
  let old_position := current_location self in
  let old_manhattan := manhattan old_position (goal self) in
  let self' := advance sim self action in
  let new_position := current_location self' in
  let new_manhattan := manhattan new_position (goal self') in
  let proximity := calculate_obstacle_proximity self' in
  let '(reward, done) :=
    score self' action old_manhattan new_manhattan proximity in
  let done := if total_steps self' >=? max_steps self' then true else done in
  let state := get_observation self' in
  let info :=
    mkInfo new_manhattan (ACTION_NAMES_get action)
           (old_manhattan - new_manhattan) proximity in
  (self', Returned (array_float32 state, reward, done, info)).

(** The [except Exception] handler's return value. *)
Definition safe_defaults : StepReturn :=
  (repeat 0.0%float 29, (-0.1)%float, true, mkInfo 999 "ERROR" 0 0%float).

Definition step (sim : Simulator) (self : GridWorldEnv) (action : Z)
    : GridWorldEnv * outcome StepReturn :=
  let '(self', r) := step_try sim self action in
  match r with
  | Returned v => (self', Returned v)
  | Raised _ => (self', Returned safe_defaults)
  end.

(** ** [reset] *)

Definition reset (sim : Simulator) (self : GridWorldEnv)
    : GridWorldEnv * list float :=
  let '(init_x, init_y) := init_loc self in
  let placed :=
    mkEnv (grid_dimensions self) (max_steps self) 0
          (use_coppeliasim self) (simulation_mode self)
          (redspots self) (goal self) init_x init_y (init_loc self)
          (init_x, init_y) in
  let self' := if coppelia_active placed then reset_block sim placed
               else placed in
  (self', array_float32 (get_observation self')).

(** ** World generation: [initialize_grid_environment]

    [random.randint] is the only source of randomness.  A run of the
    generator is fixed by the sequence of raw values the random generator
    hands out: call number [k] of [randint(a, b)] returns the value of
    [a..b] selected by the [k]-th raw value.  Every sequence of in-range
    results arises from some raw sequence, so quantifying over raw
    sequences covers every seed.  The rejection loops need not stop; a
    finite raw sequence that runs out inside a loop gives [Unfinished]. *)

Inductive generation (A : Type) : Type :=
| Generated (a : A) (rest : list Z)
| ValueError
| Unfinished.
Arguments Generated {A} a rest.
Arguments ValueError {A}.
Arguments Unfinished {A}.

(** [random.randint(a, b)] raises [ValueError] on an empty range. *)
Definition randint (a b raw : Z) : option Z :=
  if b <? a then None else Some (a + raw mod (b - a + 1)).

(** Lines 162-166. *)
Fixpoint place_obstacles (dims : Z * Z) (num_obstacles : Z)
    (spots : list (Z * Z)) (raws : list Z) : generation (list (Z * Z)) :=
  if Z.of_nat (List.length spots) <? num_obstacles then
    match raws with
    | rx :: ry :: rest =>
        match randint 0 (fst dims - 1) rx with
        | None => ValueError
        | Some ox =>
            match randint 0 (snd dims - 1) ry with
            | None => ValueError
            | Some oy =>
                if negb (contains spots (ox, oy))
                then place_obstacles dims num_obstacles
                       (spots ++ [(ox, oy)]) rest
                else place_obstacles dims num_obstacles spots rest
            end
        end
    | _ => Unfinished
    end
  else Generated spots raws.

(** Lines 169-174. *)
Fixpoint place_goal (dims : Z * Z) (spots : list (Z * Z)) (raws : list Z)
    : generation (Z * Z) :=
  match raws with
  | rx :: ry :: rest =>
      match randint 0 (fst dims - 1) rx with
      | None => ValueError
      | Some goal_x =>
          match randint 0 (snd dims - 1) ry with
          | None => ValueError
          | Some goal_y =>
              if negb (contains spots (goal_x, goal_y))
              then Generated (goal_x, goal_y) rest
              else place_goal dims spots rest
          end
      end
  | _ => Unfinished
  end.

(** Lines 177-185. *)
Fixpoint place_agent (dims : Z * Z) (spots : list (Z * Z)) (the_goal : Z * Z)
    (raws : list Z) : generation (Z * Z) :=
  match raws with
  | rx :: ry :: rest =>
      match randint 0 (fst dims - 1) rx with
      | None => ValueError
      | Some agent_x =>
          match randint 0 (snd dims - 1) ry with
          | None => ValueError
          | Some agent_y =>
              if negb (contains spots (agent_x, agent_y))
                 && negb (tuple_eqb (agent_x, agent_y) the_goal)
              then Generated (agent_x, agent_y) rest
              else place_agent dims spots the_goal rest
          end
      end
  | _ => Unfinished
  end.

(** The method sets [redspots], [goal], [x], [y], [init_loc] and
    [current_location] of [self] and leaves the other fields alone. *)
Definition initialize_grid_environment (self : GridWorldEnv) (raws : list Z)
    : generation GridWorldEnv :=
  match raws with
  | [] => Unfinished
  | rn :: raws1 =>
      match randint 20 50 rn with
      | None => ValueError
      | Some num_obstacles =>
          match place_obstacles (grid_dimensions self) num_obstacles [] raws1 with
          | Generated spots raws2 =>
              match place_goal (grid_dimensions self) spots raws2 with
              | Generated the_goal raws3 =>
                  match place_agent (grid_dimensions self) spots the_goal raws3 with
                  | Generated (agent_x, agent_y) raws4 =>
                      Generated
                        (mkEnv (grid_dimensions self) (max_steps self)
                               (total_steps self) (use_coppeliasim self)
                               (simulation_mode self) spots the_goal
                               agent_x agent_y (agent_x, agent_y)
                               (agent_x, agent_y))
                        raws4
                  | ValueError => ValueError
                  | Unfinished => Unfinished
                  end
              | ValueError => ValueError
              | Unfinished => Unfinished
              end
          | ValueError => ValueError
          | Unfinished => Unfinished
          end
      end
  end.

(** ** Coordinate mapper: [move_to_grid] and [grid_to_coordinates] *)

(** [round(f)] of a float: the nearest [int], ties to the even one; it
    raises on an infinity or a NaN. *)
Definition round (f : float) : outcome Z :=
  match Prim2SF f with
  | S754_zero _ => Returned 0
  | S754_finite s m e =>
      let n :=
        if 0 <=? e then Z.pos m * 2 ^ e
        else
          let k := - e in
          let q := Z.pos m / 2 ^ k in
          let r := Z.pos m mod 2 ^ k in
          let half := 2 ^ (k - 1) in
          if r <? half then q
          else if half <? r then q + 1
          else if Z.even q then q else q + 1 in
      Returned (if s then - n else n)
  | S754_infinity _ => Raised "OverflowError"
  | S754_nan => Raised "ValueError"
  end.

Definition move_to_grid (cx cy : float) : outcome (option (Z * Z)) :=
  let cx := (cx + 2.5)%float in
  let cy := (cy + 2.5)%float in
  if PrimFloat.ltb 5 cx || PrimFloat.ltb cx 0
     || PrimFloat.ltb 5 cy || PrimFloat.ltb cy 0
  then Returned None
  else
    match round (cx / 0.125)%float with
    | Raised e => Raised e
    | Returned x_grid =>
        match round (cy / 0.125)%float with
        | Raised e => Raised e
        | Returned y_grid =>
            if (x_grid >? 40) || (x_grid <? 0) || (y_grid >? 40) || (y_grid <? 0)
            then Returned None
            else Returned (Some (x_grid, y_grid))
        end
    end.

Definition grid_to_coordinates (x_grid y_grid : Z)
    : option (float * float * float) :=
  if (x_grid >? 40) || (x_grid <? 0) || (y_grid >? 40) || (y_grid <? 0)
  then None
  else
    let cx := (float_of_int x_grid * 0.125)%float in
    let cy := (float_of_int y_grid * 0.125)%float in
    let cx := (cx - 2.5)%float in
    let cy := (cy - 2.5)%float in
    Some (cx, cy, 0.05%float).

(** ** Bezier path engine: [bezier_recursive] and [calculate_total_length]

    Two library functions are used by the curve evaluation and are not part
    of the repository: [scipy.special.comb] and Python's [**] on a float
    and an [int].  They are arguments of the embedding.  A numpy array of
    three floats is a triple, and its arithmetic acts on each component.
    [calculate_total_length] passes the [int] 0 as its first [t]; the
    powers and products of the [int] 0 are those of the float 0.0. *)

Definition vec3 : Type := (float * float * float)%type.

Definition vadd (a b : vec3) : vec3 :=
  let '(a0, a1, a2) := a in
  let '(b0, b1, b2) := b in
  (a0 + b0, a1 + b1, a2 + b2)%float.

Definition vsub (a b : vec3) : vec3 :=
  let '(a0, a1, a2) := a in
  let '(b0, b1, b2) := b in
  (a0 - b0, a1 - b1, a2 - b2)%float.

Definition vscale (w : float) (a : vec3) : vec3 :=
  let '(a0, a1, a2) := a in (w * a0, w * a1, w * a2)%float.

Definition vdiv (a : vec3) (w : float) : vec3 :=
  let '(a0, a1, a2) := a in (a0 / w, a1 / w, a2 / w)%float.

(** [np.linalg.norm] of a vector: the square root of its dot product
    with itself. *)
Definition norm (a : vec3) : float :=
  let '(a0, a1, a2) := a in PrimFloat.sqrt (a0 * a0 + a1 * a1 + a2 * a2)%float.

(** [np.array(ctrlPts[start : start + 3])]; the curve evaluation only
    slices inside the list. *)
Definition slice3 (ctrlPts : list float) (start : Z) : vec3 :=
  (nth (Z.to_nat start) ctrlPts 0%float,
   nth (Z.to_nat (start + 1)) ctrlPts 0%float,
   nth (Z.to_nat (start + 2)) ctrlPts 0%float).

Section Bezier.

Variable comb : Z -> Z -> float.
Variable power : float -> Z -> float.
(** [self.initial_z] *)
Variable initial_z : float.

Definition bezier_term (ctrlPts : list float) (t : float) (n : Z)
    (acc : vec3 * float) (i : Z) : vec3 * float :=
  let '(point, total_weight) := acc in
  let binomial_coeff := comb n i in
  let weight :=
    (binomial_coeff * power (1 - t) (n - i) * power t i)%float in
  let point_coords := slice3 ctrlPts (i * 7) in
  (vadd point (vscale weight point_coords), (total_weight + weight)%float).

Definition bezier_recursive (ctrlPts : list float) (t : float) : vec3 :=
  let n := Z.of_nat (List.length ctrlPts) / 7 - 1 in
  let '(point, total_weight) :=
    fold_left (bezier_term ctrlPts t n) (range 0 (n + 1))
              ((0, 0, 0)%float, 0%float) in
  let point :=
    if PrimFloat.ltb 0 total_weight then vdiv point total_weight
    else point in
  let '(p0, p1, _) := point in
  (p0, p1, initial_z).

(** [t = i / subdivisions] divides two [int]s; both are far below
    [2^53] here, where the quotient of their floats is that value.  The
    division is only reached for [1 <= i <= subdivisions]. *)
Definition length_term (ctrl_points : list float) (subdivisions : Z)
    (acc : float * vec3) (i : Z) : float * vec3 :=
  let '(total_length, prev_point) := acc in
  let t := (float_of_int i / float_of_int subdivisions)%float in
  let curr_point := bezier_recursive ctrl_points t in
  ((total_length + norm (vsub curr_point prev_point))%float, curr_point).

Definition calculate_total_length (ctrl_points : list float)
    (subdivisions : Z) : float :=
  let prev_point := bezier_recursive ctrl_points 0%float in
  fst (fold_left (length_term ctrl_points subdivisions)
                 (range 1 (subdivisions + 1)) (0.0%float, prev_point)).

End Bezier.

(** The two functions on the exponents and indices that a curve with two
    control points needs; used to run the evaluation on concrete input. *)
Definition comb_upto_1 (n i : Z) : float :=
  if (0 <=? i) && (i <=? n) && (n <=? 1) then 1.0%float else 0.0%float.

Definition power_upto_1 (b : float) (e : Z) : float :=
  if e =? 0 then 1.0%float else b.

(** ** The constructor: [__init__] without the simulator

    With [use_coppeliasim=False] the constructor stores the configuration,
    leaves [simulation_mode] set and calls [initialize_grid_environment]
    inside a [try].  The handler calls it a second time, on the random
    generator as the failed call left it: a failing [randint] draws
    nothing, so [num_obstacles] was drawn, and so was the first [x] unless
    the width already gave an empty range.  A failure of the second call
    leaves the constructor.  The fields the generator sets do not exist
    before it runs; they are given placeholder values here.  The gym
    spaces of lines 76-84, built from [max(grid_dimensions)] before the
    [try], are not part of the state. *)

Definition unplaced (dims : Z * Z) (steps_limit : Z) : GridWorldEnv :=
  mkEnv dims steps_limit 0 false true [] (0, 0) 0 0 (0, 0) (0, 0).

Definition GridWorldEnv_init (dims : Z * Z) (steps_limit : Z) (raws : list Z)
    : generation GridWorldEnv :=
  match initialize_grid_environment (unplaced dims steps_limit) raws with
  | Generated self rest => Generated self rest
  | Unfinished => Unfinished
  | ValueError =>
      initialize_grid_environment (unplaced dims steps_limit)
        (skipn (if 0 <? fst dims then 2 else 1) raws)
  end.

(** ** Control points of a step (lines 517-558)

    [self.ctrlPts] is a list of points of seven floats each and
    [self.ctrlPts_flattened] their concatenation.  When the simulator block
    of [step] has coordinates for the new cell it appends one point, builds
    and follows the path, and then keeps the last two points. *)

Definition flattened (ctrlPts : list (list float)) : list float :=
  List.concat ctrlPts.

(** The offsets set next to the position update, lines 485-501. *)
Definition curve_offset (action : Z) : float * float :=
  if action =? UP then ((0 + 0.02)%float, 0%float)
  else if action =? DOWN then ((0 - 0.02)%float, 0%float)
  else if action =? LEFT then (0%float, (0 + 0.02)%float)
  else if action =? RIGHT then (0%float, (0 - 0.02)%float)
  else (0%float, 0%float).

(** Lines 524-528: the point that is appended. *)
Definition new_control_point (new_coords : float * float * float)
    (action : Z) : list float :=
  let '(cx, cy, _) := new_coords in
  let '(offset_x, offset_y) := curve_offset action in
  [(cx + offset_x)%float; (cy + offset_y)%float; 0.05; 0.0; 0.0; 0.0; 1.0]%float.

(** Lines 555-558. *)
Definition keep_last_two (ctrlPts : list (list float)) : list (list float) :=
  if (2 <? Z.of_nat (List.length ctrlPts))%Z
  then [nth (List.length ctrlPts - 2)%nat ctrlPts [];
        nth (List.length ctrlPts - 1)%nat ctrlPts []]
  else ctrlPts.

(** The control points after the block, and the flattened list the path
    was followed on.  [None] from [grid_to_coordinates] leaves the list as
    it was. *)
Definition extend_path (ctrlPts : list (list float)) (self : GridWorldEnv)
    (action : Z) : list (list float) * list float :=
  match grid_to_coordinates (x self) (y self) with
  | Some new_coords =>
      let appended := ctrlPts ++ [new_control_point new_coords action] in
      (keep_last_two appended, flattened appended)
  | None => (ctrlPts, flattened ctrlPts)
  end.

(** ** Tangent of the curve: [get_point_and_tangent] *)

(** [min(a, b)] on floats: the first argument unless the second is
    strictly smaller. *)
Definition float_min (a b : float) : float :=
  if PrimFloat.ltb b a then b else a.

Definition get_point_and_tangent (comb : Z -> Z -> float)
    (power : float -> Z -> float) (initial_z : float)
    (t : float) (ctrl_points : list float) : vec3 * vec3 :=
  let point := bezier_recursive comb power initial_z ctrl_points t in
  let delta := 0.001%float in
  let t_next := float_min 1.0 (t + delta)%float in
  let next_point := bezier_recursive comb power initial_z ctrl_points t_next in
  let tangent := vsub next_point point in
  let tangent :=
    if PrimFloat.ltb 0 (norm tangent) then vdiv tangent (norm tangent)
    else tangent in
  (point, tangent).

(** ** Placement test: [create_bounding_locations] and [is_position_valid] *)

Definition point2 : Type := (float * float)%type.

Definition create_bounding_locations (position : point2) (dimensions : vec3)
    : point2 * point2 * point2 * point2 * point2 * point2 * point2 * point2 :=
  let '(px, py) := position in
  let '(a, b, c) := dimensions in
  let top_right := ((px + a / 2)%float, (py + b / 2)%float) in
  let bottom_left := ((px - a / 2)%float, (py - b / 2)%float) in
  let top_left := ((px - a / 2)%float, (py + b / 2)%float) in
  let bottom_right := ((px + a / 2)%float, (py - b / 2)%float) in
  let mid_top := (((fst top_right + fst top_left) / 2)%float,
                  ((snd top_right + snd top_left) / 2)%float) in
  let mid_bottom := (((fst bottom_right + fst bottom_left) / 2)%float,
                     ((snd bottom_right + snd bottom_left) / 2)%float) in
  let mid_left := (((fst top_left + fst bottom_left) / 2)%float,
                   ((snd top_left + snd bottom_left) / 2)%float) in
  let mid_right := (((fst top_right + fst bottom_right) / 2)%float,
                    ((snd top_right + snd bottom_right) / 2)%float) in
  (top_right, bottom_left, top_left, bottom_right,
   mid_top, mid_bottom, mid_left, mid_right).

(** The test of one existing obstacle, lines 960-968: [true] when the two
    boxes are apart along one of the axes. *)
Definition boxes_apart (new_position : point2) (object_dimensions : vec3)
    (pos : point2) (obstacle_dimensions : vec3) : bool :=
  let '(new_top_right, new_bottom_left, _, _, _, _, _, _) :=
    create_bounding_locations new_position object_dimensions in
  let '(existing_top_right, existing_bottom_left, _, _, _, _, _, _) :=
    create_bounding_locations (fst pos, snd pos) obstacle_dimensions in
  PrimFloat.ltb (fst new_top_right) (fst existing_bottom_left)
  || PrimFloat.ltb (fst existing_top_right) (fst new_bottom_left)
  || PrimFloat.ltb (snd new_top_right) (snd existing_bottom_left)
  || PrimFloat.ltb (snd existing_top_right) (snd new_bottom_left).

Definition is_position_valid (new_x new_y : float) (object_dimensions : vec3)
    (obstacle_positions : list point2) (obstacle_dimensions : vec3) : bool :=
  let '(a, b, _) := object_dimensions in
  if PrimFloat.ltb 2.5 (new_x + a / 2) || PrimFloat.ltb (new_x - a / 2) (-2.5)
     || PrimFloat.ltb 2.5 (new_y + b / 2) || PrimFloat.ltb (new_y - b / 2) (-2.5)
  then false
  else forallb (fun pos => boxes_apart (new_x, new_y) object_dimensions
                                       pos obstacle_dimensions)
               obstacle_positions.

(** * Properties *)

(** ** Lists, ranges and membership *)

Lemma tuple_eqb_eq (p q : Z * Z) : tuple_eqb p q = true <-> p = q.
Proof.
  destruct p as [p1 p2], q as [q1 q2]; unfold tuple_eqb; simpl.
  rewrite andb_true_iff, !Z.eqb_eq.
  split; [intros [-> ->]; reflexivity | intros E; inversion E; auto].
Qed.

Lemma contains_In (l : list (Z * Z)) (p : Z * Z) :
  contains l p = true <-> In p l.
Proof.
  unfold contains. rewrite existsb_exists. split.
  - intros [q [Hq E]]. apply tuple_eqb_eq in E. subst q. exact Hq.
  - intros Hp. exists p. split; [exact Hp | apply tuple_eqb_eq; reflexivity].
Qed.

Lemma contains_not_In (l : list (Z * Z)) (p : Z * Z) :
  contains l p = false <-> ~ In p l.
Proof.
  rewrite <- contains_In. destruct (contains l p); split; congruence.
Qed.

Lemma in_range (a b i : Z) : In i (range a b) <-> a <= i < b.
Proof.
  unfold range. rewrite in_map_iff. split.
  - intros [k [<- Hk]]. apply in_seq in Hk. lia.
  - intros Hi. exists (Z.to_nat (i - a)). split; [lia | apply in_seq; lia].
Qed.

Lemma fold_left_pointwise {A B : Type} (f g : A -> B -> A) (l : list B) :
  (forall a b, In b l -> f a b = g a b) ->
  forall a, fold_left f l a = fold_left g l a.
Proof.
  induction l as [| b l IH]; intros Hfg a; simpl; [reflexivity |].
  rewrite (Hfg a b (or_introl eq_refl)).
  apply IH. intros a' b' Hb'. apply Hfg. right. exact Hb'.
Qed.

Lemma fold_left_nested {A B C : Type} (f : A -> B * C -> A)
    (l : list B) (l' : list C) (a : A) :
  fold_left (fun acc b => fold_left (fun acc' c => f acc' (b, c)) l' acc) l a
  = fold_left f (list_prod l l') a.
Proof.
  revert a. induction l as [| b l IH]; intros a; simpl; [reflexivity |].
  rewrite fold_left_app, <- IH. f_equal.
  clear IH. revert a. induction l' as [| c l' IH']; intros a; simpl; auto.
Qed.

(** ** The window scan of [calculate_obstacle_proximity] *)

(** An offset counts when its cell is inside the grid and is an obstacle. *)
Definition window_hit (self : GridWorldEnv) (c : Z * Z) : bool :=
  let p := (fst (current_location self) + fst c,
            snd (current_location self) + snd c) in
  negb ((fst p <? 0) || (fst p >=? fst (grid_dimensions self))
        || (snd p <? 0) || (snd p >=? snd (grid_dimensions self)))
  && contains (redspots self) p.

Definition offset_distance (c : Z * Z) : Z := Z.abs (fst c) + Z.abs (snd c).

Definition window : list (Z * Z) := list_prod (range (-4) 5) (range (-4) 5).

Lemma proximity_visit_hit (self : GridWorldEnv) (c : Z * Z) (md : option Z) :
  proximity_visit self (fst c) (snd c) md
  = if window_hit self c then min_with md (offset_distance c) else md.
Proof.
  unfold proximity_visit, window_hit, offset_distance.
  destruct (current_location self) as [ax ay]; simpl.
  destruct (_ || _ || _ || _); simpl; reflexivity.
Qed.

Lemma nearest_in_window_scan (self : GridWorldEnv) :
  nearest_in_window self
  = fold_left (fun md c =>
      if window_hit self c then min_with md (offset_distance c) else md)
      window None.
Proof.
  unfold nearest_in_window, window.
  rewrite <- (fold_left_nested
    (fun md c => if window_hit self c then min_with md (offset_distance c)
                 else md)).
  apply fold_left_pointwise. intros md dx _.
  apply fold_left_pointwise. intros md' dy _.
  apply (proximity_visit_hit self (dx, dy)).
Qed.

Lemma in_window (c : Z * Z) :
  In c window <-> (-4 <= fst c <= 4) /\ (-4 <= snd c <= 4).
Proof.
  destruct c as [dx dy]. unfold window.
  rewrite in_prod_iff, !in_range. simpl. lia.
Qed.

(** What a scan of any list of offsets returns: nothing when no offset
    counts, otherwise the least distance among the start value and the
    offsets that count. *)
Lemma scan_spec (self : GridWorldEnv) (l : list (Z * Z)) :
  forall acc : option Z,
  match fold_left (fun md c =>
          if window_hit self c then min_with md (offset_distance c) else md)
          l acc with
  | None => acc = None /\ forall c, In c l -> window_hit self c = false
  | Some m =>
      (acc = Some m
       \/ exists c, In c l /\ window_hit self c = true /\ offset_distance c = m)
      /\ (forall a, acc = Some a -> m <= a)
      /\ (forall c, In c l -> window_hit self c = true -> m <= offset_distance c)
  end.
Proof.
  induction l as [| c l IH]; intros acc; simpl.
  - destruct acc as [m |].
    + split; [left; reflexivity |].
      split; [intros a E; inversion E; lia | intros c []].
    + split; [reflexivity | intros c []].
  - specialize (IH (if window_hit self c
                    then min_with acc (offset_distance c) else acc)).
    destruct (fold_left _ l _) as [m |].
    + destruct IH as [Hsrc [Hacc Hall]].
      destruct (window_hit self c) eqn:Hc.
      * assert (Hm : m <= offset_distance c
                     /\ forall a, acc = Some a -> m <= a).
        { destruct acc as [a |]; simpl in Hacc.
          - destruct (offset_distance c <? a) eqn:Hlt.
            + apply Z.ltb_lt in Hlt. specialize (Hacc _ eq_refl).
              split; [lia | intros a' E; inversion E; lia].
            + apply Z.ltb_ge in Hlt. specialize (Hacc _ eq_refl).
              split; [lia | intros a' E; inversion E; lia].
          - specialize (Hacc _ eq_refl). split; [lia | intros a' E; discriminate]. }
        destruct Hm as [Hmc Hma].
        split; [| split].
        -- destruct Hsrc as [Hsrc | [c' [Hin [Hhit Hd]]]].
           ++ destruct acc as [a |]; simpl in Hsrc.
              ** destruct (offset_distance c <? a); inversion Hsrc; subst.
                 --- right. exists c. auto.
                 --- left. reflexivity.
              ** inversion Hsrc; subst. right. exists c. auto.
           ++ right. exists c'. auto.
        -- exact Hma.
        -- intros c' [<- | Hin] Hhit; [exact Hmc | apply Hall; assumption].
      * split; [| split].
        -- destruct Hsrc as [Hsrc | [c' [Hin [Hhit Hd]]]];
             [left; exact Hsrc | right; exists c'; auto].
        -- exact Hacc.
        -- intros c' [<- | Hin] Hhit; [congruence | apply Hall; assumption].
    + destruct IH as [Hacc Hall].
      destruct (window_hit self c) eqn:Hc.
      * destruct acc as [a |]; simpl in Hacc;
          [destruct (offset_distance c <? a) |]; discriminate.
      * split; [exact Hacc | intros c' [<- | Hin]; auto].
Qed.

Lemma nearest_in_window_bounds (self : GridWorldEnv) (m : Z) :
  nearest_in_window self = Some m -> 0 <= m <= 8.
Proof.
  rewrite nearest_in_window_scan. intros E.
  pose proof (scan_spec self window None) as H. rewrite E in H.
  destruct H as [[H | [c [Hin [_ Hd]]]] _]; [discriminate |].
  apply in_window in Hin. unfold offset_distance in Hd. lia.
Qed.

(** ** Floating-point facts settled by evaluation *)

Ltac float_differs :=
  let E := fresh "E" in
  intro E; apply (f_equal Prim2SF) in E; vm_compute in E; discriminate E.

Ltac cases_0_8 m :=
  assert (m = 0 \/ m = 1 \/ m = 2 \/ m = 3 \/ m = 4
          \/ m = 5 \/ m = 6 \/ m = 7 \/ m = 8) as Hcases_0_8 by lia;
  repeat (destruct Hcases_0_8 as [Hcases_0_8 | Hcases_0_8]);
  subst m.

(** The values [calculate_obstacle_proximity] can return. *)
Definition proximity_values : list float :=
  0.0%float :: map proximity_of_distance (range 0 9).

Lemma calculate_obstacle_proximity_values (self : GridWorldEnv) :
  In (calculate_obstacle_proximity self) proximity_values.
Proof.
  unfold calculate_obstacle_proximity, proximity_values.
  destruct (nearest_in_window self) as [m |] eqn:E.
  - right. apply in_map. apply in_range.
    apply nearest_in_window_bounds in E. lia.
  - left. reflexivity.
Qed.

Lemma shaping_reward_not_terminal (old_m new_m : Z) (p : float) (wall : bool) :
  In p proximity_values ->
  shaping_reward old_m new_m p wall <> 1.0%float
  /\ shaping_reward old_m new_m p wall <> (-20.0)%float.
Proof.
  intros Hp. unfold shaping_reward.
  destruct (new_m <? old_m), (new_m >? old_m), wall;
    vm_compute in Hp;
    repeat (destruct Hp as [<- | Hp]; [split; float_differs |]);
    destruct Hp.
Qed.

(** ** One step *)

Lemma advance_fields (sim : Simulator) (self : GridWorldEnv) (action : Z) :
  let self' := advance sim self action in
  grid_dimensions self' = grid_dimensions self
  /\ max_steps self' = max_steps self
  /\ total_steps self' = total_steps self + 1
  /\ redspots self' = redspots self
  /\ goal self' = goal self
  /\ init_loc self' = init_loc self
  /\ (x self', y self') = move self action
  /\ current_location self' = move self action.
Proof.
  unfold advance. destruct (move self action) as [nx ny].
  destruct (_ && _); simpl; repeat split; reflexivity.
Qed.

Lemma step_unfold (sim : Simulator) (self : GridWorldEnv) (action : Z) :
  step sim self action =
  let self' := advance sim self action in
  let old_manhattan := manhattan (current_location self) (goal self) in
  let new_manhattan := manhattan (current_location self') (goal self') in
  let proximity := calculate_obstacle_proximity self' in
  let sc := score self' action old_manhattan new_manhattan proximity in
  (self',
   Returned (array_float32 (get_observation self'),
             fst sc,
             if total_steps self' >=? max_steps self' then true else snd sc,
             mkInfo new_manhattan (ACTION_NAMES_get action)
                    (old_manhattan - new_manhattan) proximity)).
Proof.
  unfold step, step_try. cbv zeta.
  destruct (score _ _ _ _ _) as [reward done]. reflexivity.
Qed.

(** The three rules of [score], read off the position after the move. *)
Lemma score_goal (self : GridWorldEnv) (action om nm : Z) (p : float) :
  current_location self = goal self ->
  score self action om nm p = (1.0%float, true).
Proof.
  intros E. unfold score.
  replace (tuple_eqb _ _) with true; [reflexivity |].
  symmetry. apply tuple_eqb_eq. exact E.
Qed.

Lemma score_obstacle (self : GridWorldEnv) (action om nm : Z) (p : float) :
  current_location self <> goal self ->
  In (current_location self) (redspots self) ->
  score self action om nm p = ((-20.0)%float, true).
Proof.
  intros Hne Hin. unfold score.
  destruct (tuple_eqb _ _) eqn:E; [apply tuple_eqb_eq in E; contradiction |].
  apply contains_In in Hin. rewrite Hin. reflexivity.
Qed.

Lemma score_shaping (self : GridWorldEnv) (action om nm : Z) (p : float) :
  current_location self <> goal self ->
  ~ In (current_location self) (redspots self) ->
  score self action om nm p
  = (shaping_reward om nm p (hits_wall self action), false).
Proof.
  intros Hne Hnin. unfold score.
  destruct (tuple_eqb _ _) eqn:E; [apply tuple_eqb_eq in E; contradiction |].
  apply contains_not_In in Hnin. rewrite Hnin. reflexivity.
Qed.

(** The goal rule is tried first: it wins even on a layout whose goal
    cell is also listed as an obstacle. *)
Lemma goal_rule_first (sim : Simulator) (self : GridWorldEnv) (action : Z) :
  current_location (advance sim self action) = goal (advance sim self action) ->
  exists r, step sim self action = (advance sim self action, Returned r)
            /\ reward_of r = 1.0%float /\ done_of r = true.
Proof.
  intros E. rewrite step_unfold. cbv zeta.
  eexists. split; [reflexivity |].
  rewrite (score_goal _ _ _ _ _ E). unfold reward_of, done_of; simpl.
  split; [reflexivity | destruct (_ >=? _); reflexivity].
Qed.

(** A running example: a 40 x 40 grid in grid-only mode, the agent on the
    second row, one obstacle far away. *)
Definition quiet_sim : Simulator := mkSim (fun _ => false) (fun self => self).

Definition demo_env : GridWorldEnv :=
  mkEnv (40, 40) 100 0 false true [(30, 30)] (20, 20) 5 1 (5, 1) (5, 1).

(** C1: the reward is 1.0 with [done] exactly when the position after the
    move is the goal, and -20.0 with [done] exactly when it is an obstacle
    cell; on a layout whose goal is not an obstacle the two cases exclude
    each other. *)
Theorem step_terminal_rewards (sim : Simulator) (self : GridWorldEnv)
    (action : Z) (Hgoal : ~ In (goal self) (redspots self)) :
  exists self' r,
    step sim self action = (self', Returned r)
    /\ (reward_of r = 1.0%float /\ done_of r = true
        <-> current_location self' = goal self')
    /\ (reward_of r = (-20.0)%float /\ done_of r = true
        <-> In (current_location self') (redspots self'))
    /\ ~ (current_location self' = goal self'
          /\ In (current_location self') (redspots self')).
Proof.
  rewrite step_unfold. cbv zeta.
  set (self' := advance sim self action).
  destruct (advance_fields sim self action)
    as (_ & _ & _ & Hred & Hgl & _). fold self' in Hred, Hgl.
  set (om := manhattan (current_location self) (goal self)).
  set (nm := manhattan (current_location self') (goal self')).
  pose proof (calculate_obstacle_proximity_values self') as Hp.
  set (p := calculate_obstacle_proximity self') in *.
  assert (Hexcl : ~ (current_location self' = goal self'
                     /\ In (current_location self') (redspots self'))).
  { intros [E Hin]. rewrite E, Hgl, Hred in Hin. contradiction. }
  eexists. eexists. split; [reflexivity |].
  unfold reward_of, done_of; simpl.
  destruct (shaping_reward_not_terminal om nm p (hits_wall self' action) Hp)
    as [Hn1 Hn20].
  destruct (tuple_eqb (current_location self') (goal self')) eqn:Eg.
  - apply tuple_eqb_eq in Eg.
    rewrite (score_goal _ _ _ _ _ Eg); simpl.
    split; [| split; [| exact Hexcl]].
    + split; [intros _; exact Eg |].
      intros _. split; [reflexivity | destruct (_ >=? _); reflexivity].
    + split.
      * intros [E _]. exfalso. revert E. float_differs.
      * intros Hin. exfalso. apply Hexcl. split; assumption.
  - assert (Hne : current_location self' <> goal self').
    { intros E. apply tuple_eqb_eq in E. congruence. }
    destruct (contains (redspots self') (current_location self')) eqn:Ec.
    + apply contains_In in Ec.
      rewrite (score_obstacle _ _ _ _ _ Hne Ec); simpl.
      split; [| split; [| exact Hexcl]].
      * split; [| intros E; contradiction].
        intros [E _]. exfalso. revert E. float_differs.
      * split; [intros _; exact Ec |].
        intros _. split; [reflexivity | destruct (_ >=? _); reflexivity].
    + apply contains_not_In in Ec.
      rewrite (score_shaping _ _ _ _ _ Hne Ec); simpl.
      split; [| split; [| exact Hexcl]].
      * split; [intros [E _]; contradiction | intros E; contradiction].
      * split; [intros [E _]; contradiction | intros E; contradiction].
Qed.

Lemma step_terminal_rewards_witness :
  ~ In (goal demo_env) (redspots demo_env)
  /\ exists self' r,
       step quiet_sim demo_env UP = (self', Returned r)
       /\ (reward_of r = 1.0%float /\ done_of r = true
           <-> current_location self' = goal self')
       /\ (reward_of r = (-20.0)%float /\ done_of r = true
           <-> In (current_location self') (redspots self'))
       /\ ~ (current_location self' = goal self'
             /\ In (current_location self') (redspots self')).
Proof.
  assert (H : ~ In (goal demo_env) (redspots demo_env)).
  { simpl. intros [E | []]. discriminate E. }
  split; [exact H | exact (step_terminal_rewards quiet_sim demo_env UP H)].
Defined.

(** On a step that ends neither on the goal nor on an obstacle the reward
    is the shaping sum, and its wall term is decided by [hits_wall] on the
    position after the move. *)
Lemma step_shaping_reward (sim : Simulator) (self : GridWorldEnv) (action : Z) :
  let self' := advance sim self action in
  current_location self' <> goal self' ->
  ~ In (current_location self') (redspots self') ->
  exists r,
    step sim self action = (self', Returned r)
    /\ reward_of r
       = shaping_reward (manhattan (current_location self) (goal self))
                        (manhattan (current_location self') (goal self'))
                        (calculate_obstacle_proximity self')
                        (hits_wall self' action).
Proof.
  intros self' Hne Hnin. rewrite step_unfold. cbv zeta. fold self'.
  eexists. split; [reflexivity |].
  rewrite (score_shaping _ _ _ _ _ Hne Hnin). reflexivity.
Qed.

(** The scenario of the specification: at [(0, 0)] a [LEFT] leaves the
    agent where it is and the reward carries the wall term. *)
Definition corner_env : GridWorldEnv :=
  mkEnv (40, 40) 100 0 false true [(30, 30)] (20, 20) 0 0 (0, 0) (0, 0).

Lemma corner_left_is_penalised :
  exists self' r,
    step quiet_sim corner_env LEFT = (self', Returned r)
    /\ current_location self' = (0, 0)
    /\ reward_of r = (-0.05 + (- 0.0) * 0.3 - 0.2)%float.
Proof. eexists. eexists. vm_compute. repeat split; reflexivity. Qed.

(** C2: the wall term is also charged to a move that was not blocked.
    From [(5, 1)] the action [UP] moves the agent to [(5, 0)]; the step is
    not terminal, the distance to the goal grows, no obstacle is near, and
    the reward is -0.1 - 0.2 rather than -0.1. *)
Theorem wall_penalty_on_unblocked_move :
  exists self' r,
    step quiet_sim demo_env UP = (self', Returned r)
    /\ current_location demo_env = (5, 1)
    /\ current_location self' = (5, 0)
    /\ current_location self' <> goal self'
    /\ ~ In (current_location self') (redspots self')
    /\ manhattan (current_location demo_env) (goal demo_env)
       < manhattan (current_location self') (goal self')
    /\ calculate_obstacle_proximity self' = 0.0%float
    /\ reward_of r = (-0.1 + (- 0.0) * 0.3 - 0.2)%float
    /\ reward_of r <> (-0.1 + (- 0.0) * 0.3)%float.
Proof.
  eexists. eexists. split; [vm_compute; reflexivity |].
  split; [reflexivity |]. split; [reflexivity |].
  split; [vm_compute; discriminate |].
  split; [vm_compute; intros [E | []]; discriminate E |].
  split; [vm_compute; reflexivity |].
  split; [vm_compute; reflexivity |].
  split; [vm_compute; reflexivity |].
  unfold reward_of; simpl. float_differs.
Qed.

(** ** Actions outside the enumeration *)

Lemma invalid_action_tests (action : Z) :
  action < 0 \/ 4 < action ->
  (action =? UP) = false /\ (action =? DOWN) = false
  /\ (action =? LEFT) = false /\ (action =? RIGHT) = false
  /\ (action =? STAY) = false.
Proof.
  unfold UP, DOWN, LEFT, RIGHT, STAY. intros H.
  repeat split; apply Z.eqb_neq; lia.
Qed.

Lemma advance_invalid_action (sim : Simulator) (self : GridWorldEnv)
    (action : Z) :
  action < 0 \/ 4 < action ->
  advance sim self action = advance sim self STAY.
Proof.
  intros H. destruct (invalid_action_tests action H) as (U & D & L & R & _).
  unfold advance, move. rewrite U, D, L, R. reflexivity.
Qed.

Lemma score_invalid_action (self : GridWorldEnv) (action om nm : Z)
    (p : float) :
  action < 0 \/ 4 < action ->
  score self action om nm p = score self STAY om nm p.
Proof.
  intros H. destruct (invalid_action_tests action H) as (U & D & L & R & _).
  unfold score, hits_wall. rewrite U, D, L, R. reflexivity.
Qed.

(** C3, as the code has it: an [int] action outside 0..4 raises nothing.
    [step] returns the tuple that [STAY] returns, the position is kept, and
    only the name in [info] differs: it is ["UNKNOWN"]. *)
Theorem step_invalid_action_acts_as_stay (sim : Simulator)
    (self : GridWorldEnv) (action : Z) (Hinvalid : action < 0 \/ 4 < action) :
  exists self' observation reward done info,
    step sim self action = (self', Returned (observation, reward, done, info))
    /\ step sim self STAY
       = (self', Returned (observation, reward, done,
                           mkInfo (manhattan_distance info) "STAY"
                                  (manhattan_improvement info)
                                  (obstacle_proximity info)))
    /\ action_name info = "UNKNOWN"%string
    /\ (x self', y self') = (x self, y self)
    /\ total_steps self' = total_steps self + 1.
Proof.
  rewrite !step_unfold. cbv zeta.
  rewrite (advance_invalid_action sim self action Hinvalid).
  rewrite (score_invalid_action _ action _ _ _ Hinvalid).
  destruct (invalid_action_tests action Hinvalid) as (U & D & L & R & S).
  destruct (advance_fields sim self STAY) as (_ & _ & Ht & _ & _ & _ & Hxy & _).
  do 5 eexists. split; [reflexivity |]. simpl.
  split; [reflexivity |].
  split; [unfold ACTION_NAMES_get; rewrite U, D, L, R, S; reflexivity |].
  split; [exact Hxy | exact Ht].
Qed.

Lemma step_invalid_action_acts_as_stay_witness :
  (7 < 0 \/ 4 < 7)
  /\ exists self' observation reward done info,
       step quiet_sim demo_env 7
       = (self', Returned (observation, reward, done, info))
       /\ step quiet_sim demo_env STAY
          = (self', Returned (observation, reward, done,
                              mkInfo (manhattan_distance info) "STAY"
                                     (manhattan_improvement info)
                                     (obstacle_proximity info)))
       /\ action_name info = "UNKNOWN"%string
       /\ (x self', y self') = (x demo_env, y demo_env)
       /\ total_steps self' = total_steps demo_env + 1.
Proof.
  assert (H : 7 < 0 \/ 4 < 7) by (right; lia).
  split; [exact H |].
  exact (step_invalid_action_acts_as_stay quiet_sim demo_env 7 H).
Defined.

(** C3, as the specification states it, fails: the action 7 is outside the
    enumeration and [step] returns an ordinary tuple for it. *)
Lemma step_accepts_action_7 :
  exists self' r,
    step quiet_sim demo_env 7 = (self', Returned r)
    /\ current_location self' = current_location demo_env
    /\ reward_of r = (-0.05 + (- 0.0) * 0.3)%float
    /\ done_of r = false
    /\ action_name (info_of r) = "UNKNOWN"%string.
Proof. eexists. eexists. vm_compute. repeat split; reflexivity. Qed.

(** ** The step limit *)

(** C5: once the counter has reached [max_steps] after a step, that step
    reports [done], whatever reward rule applied. *)
Theorem step_done_at_max_steps (sim : Simulator) (self self' : GridWorldEnv)
    (action : Z) (r : StepReturn)
    (Hstep : step sim self action = (self', Returned r))
    (Hlimit : total_steps self' >= max_steps self') :
  done_of r = true.
Proof.
  rewrite step_unfold in Hstep. cbv zeta in Hstep.
  inversion Hstep as [[Hs Hr]]. clear Hstep Hr.
  rewrite Hs. unfold done_of; simpl.
  destruct (total_steps self' >=? max_steps self') eqn:E; [reflexivity |].
  rewrite Z.geb_leb in E. apply Z.leb_gt in E. lia.
Qed.

(** The last step of an episode of three steps, ending on a free cell. *)
Definition last_step_env : GridWorldEnv :=
  mkEnv (40, 40) 3 2 false true [(30, 30)] (20, 20) 5 1 (5, 1) (5, 1).

Lemma step_done_at_max_steps_witness :
  exists self' r,
    step quiet_sim last_step_env RIGHT = (self', Returned r)
    /\ total_steps self' >= max_steps self'
    /\ reward_of r = (0.1 + (- 0.0) * 0.3)%float
    /\ done_of r = true.
Proof.
  destruct (step quiet_sim last_step_env RIGHT) as [self' [r | exc]] eqn:E;
    [| vm_compute in E; discriminate E].
  exists self', r.
  assert (Hlimit : total_steps self' >= max_steps self').
  { vm_compute in E. inversion E. vm_compute. discriminate. }
  split; [reflexivity |]. split; [exact Hlimit |].
  split; [vm_compute in E; inversion E; reflexivity |].
  exact (step_done_at_max_steps quiet_sim last_step_env self' RIGHT r E Hlimit).
Defined.

(** ** The observation vector *)

(** The label of a cell: obstacle first, then goal, then empty. *)
Definition label_of (self : GridWorldEnv) (p : Z * Z) (v : float) : Prop :=
  (In p (redspots self) -> v = 1.0%float)
  /\ (~ In p (redspots self) -> p = goal self -> v = 2.0%float)
  /\ (~ In p (redspots self) -> p <> goal self -> v = 0.0%float).

Lemma cell_color_label (self : GridWorldEnv) (p : Z * Z) :
  label_of self p (cell_color self p).
Proof.
  unfold label_of, cell_color.
  destruct (contains (redspots self) p) eqn:Ec.
  - apply contains_In in Ec. repeat split; intros; try reflexivity; contradiction.
  - apply contains_not_In in Ec.
    destruct (tuple_eqb p (goal self)) eqn:Eg.
    + apply tuple_eqb_eq in Eg.
      repeat split; intros; try reflexivity; contradiction.
    + assert (p <> goal self) by (intros E; apply tuple_eqb_eq in E; congruence).
      repeat split; intros; try reflexivity; contradiction.
Qed.

Lemma float32_cell_color (self : GridWorldEnv) (p : Z * Z) :
  float32 (cell_color self p) = cell_color self p.
Proof.
  unfold cell_color.
  destruct (contains _ _); [| destruct (tuple_eqb _ _)]; vm_compute; reflexivity.
Qed.

(** The outer loop runs over [dy] and the inner one over [dx], so entry
    [k] of the window belongs to the offset [(k mod 5 - 2, k / 5 - 2)]. *)
Lemma get_observation_entries (self : GridWorldEnv) :
  get_observation self
  = map (fun k => cell_color self
                    (vision_cell self (Z.of_nat (k mod 5) - 2)
                                      (Z.of_nat (k / 5) - 2)))
        (seq 0 25)
    ++ [float_of_int (fst (current_location self));
        float_of_int (snd (current_location self));
        float_of_int (fst (goal self)); float_of_int (snd (goal self))].
Proof.
  unfold get_observation.
  destruct (current_location self) as [ax ay] eqn:Ecur.
  destruct (goal self) as [gx gy] eqn:Egoal.
  change (range (-2) 3) with [-2; -1; 0; 1; 2].
  reflexivity.
Qed.

Lemma get_observation_length (self : GridWorldEnv) :
  List.length (get_observation self) = 29%nat.
Proof.
  rewrite get_observation_entries, length_app, length_map, length_seq.
  reflexivity.
Qed.

Lemma array_float32_length (l : list float) :
  List.length (array_float32 l) = List.length l.
Proof. apply length_map. Qed.

Lemma reset_observation (sim : Simulator) (self : GridWorldEnv) :
  snd (reset sim self) = array_float32 (get_observation (fst (reset sim self))).
Proof. unfold reset. destruct (init_loc self). reflexivity. Qed.

(** C6: the observation has 29 entries in every state.  Entry [k < 25] is
    the label of the cell at offset [(k mod 5 - 2, k / 5 - 2)] from the
    agent with both coordinates clamped to the grid; the last four entries
    are the agent's and the goal's coordinates as floats.  [reset] and
    [step] return this vector, entry by entry in single precision, which
    leaves the labels as they are. *)
Theorem observation_layout (sim : Simulator) (self : GridWorldEnv) (k : nat)
    (Hk : (k < 25)%nat) :
  let obs := get_observation self in
  let dx := Z.of_nat (k mod 5) - 2 in
  let dy := Z.of_nat (k / 5) - 2 in
  let cell :=
    (Z.max 0 (Z.min (fst (grid_dimensions self) - 1)
                    (fst (current_location self) + dx)),
     Z.max 0 (Z.min (snd (grid_dimensions self) - 1)
                    (snd (current_location self) + dy))) in
  List.length obs = 29%nat
  /\ label_of self cell (nth k obs 0%float)
  /\ label_of self cell (nth k (array_float32 obs) 0%float)
  /\ skipn 25 obs
     = [float_of_int (fst (current_location self));
        float_of_int (snd (current_location self));
        float_of_int (fst (goal self)); float_of_int (snd (goal self))]
  /\ snd (reset sim self)
     = array_float32 (get_observation (fst (reset sim self)))
  /\ List.length (snd (reset sim self)) = 29%nat
  /\ forall action, exists self' r,
       step sim self action = (self', Returned r)
       /\ observation_of r = array_float32 (get_observation self')
       /\ List.length (observation_of r) = 29%nat.
Proof.
  cbv zeta.
  assert (Hcell :
    nth k (get_observation self) 0%float
    = cell_color self
        (Z.max 0 (Z.min (fst (grid_dimensions self) - 1)
                        (fst (current_location self) + (Z.of_nat (k mod 5) - 2))),
         Z.max 0 (Z.min (snd (grid_dimensions self) - 1)
                        (snd (current_location self) + (Z.of_nat (k / 5) - 2))))).
  { rewrite get_observation_entries.
    rewrite app_nth1 by (rewrite length_map, length_seq; exact Hk).
    rewrite (nth_indep _ 0%float
               (cell_color self (vision_cell self (Z.of_nat (0 mod 5) - 2)
                                                  (Z.of_nat (0 / 5) - 2))))
      by (rewrite length_map, length_seq; exact Hk).
    rewrite (map_nth (fun k => cell_color self
               (vision_cell self (Z.of_nat (k mod 5) - 2) (Z.of_nat (k / 5) - 2)))).
    rewrite seq_nth by exact Hk. simpl (0 + k)%nat.
    unfold vision_cell. destruct (current_location self). reflexivity. }
  split; [apply get_observation_length |].
  split; [rewrite Hcell; apply cell_color_label |].
  split.
  { unfold array_float32.
    rewrite (nth_indep _ 0%float (float32 0%float))
      by (rewrite length_map, get_observation_length; lia).
    rewrite map_nth, Hcell, float32_cell_color. apply cell_color_label. }
  split; [rewrite get_observation_entries; reflexivity |].
  split; [apply reset_observation |].
  split.
  { rewrite reset_observation, array_float32_length.
    apply get_observation_length. }
  intros action. rewrite step_unfold. cbv zeta.
  eexists. eexists. split; [reflexivity |].
  unfold observation_of; simpl.
  split; [reflexivity |].
  rewrite array_float32_length. apply get_observation_length.
Qed.

(** ** Reset *)

Lemma reset_grid_only (sim : Simulator) (self : GridWorldEnv) :
  coppelia_active self = false ->
  fst (reset sim self)
  = mkEnv (grid_dimensions self) (max_steps self) 0
          (use_coppeliasim self) (simulation_mode self)
          (redspots self) (goal self)
          (fst (init_loc self)) (snd (init_loc self)) (init_loc self)
          (init_loc self).
Proof.
  intros Hgrid. unfold reset. destruct (init_loc self) as [ix iy].
  unfold coppelia_active in *. simpl. rewrite Hgrid. reflexivity.
Qed.

(** C9: in grid-only mode [reset] puts the agent back on [init_loc] with a
    zero step counter, from any state, and a second [reset] right after the
    first returns the same observation and leaves the state as it is. *)
Theorem reset_twice (sim : Simulator) (self : GridWorldEnv)
    (Hgrid : coppelia_active self = false) :
  let first := reset sim self in
  let second := reset sim (fst first) in
  snd first = snd second
  /\ total_steps (fst first) = 0
  /\ total_steps (fst second) = 0
  /\ current_location (fst first) = init_loc self
  /\ (x (fst first), y (fst first)) = init_loc self
  /\ current_location (fst second) = init_loc self
  /\ (x (fst second), y (fst second)) = init_loc self
  /\ fst second = fst first.
Proof.
  cbv zeta.
  assert (Hagain : coppelia_active (fst (reset sim self)) = false).
  { rewrite (reset_grid_only sim self Hgrid). exact Hgrid. }
  assert (Hsame : fst (reset sim (fst (reset sim self))) = fst (reset sim self)).
  { rewrite (reset_grid_only sim _ Hagain).
    rewrite (reset_grid_only sim self Hgrid). simpl.
    destruct (init_loc self); reflexivity. }
  rewrite (reset_observation sim (fst (reset sim self))), Hsame.
  rewrite (reset_observation sim self).
  rewrite (reset_grid_only sim self Hgrid). simpl.
  destruct (init_loc self); repeat split; reflexivity.
Qed.

(** A state in the middle of an episode, away from its start cell. *)
Definition midway_env : GridWorldEnv :=
  mkEnv (40, 40) 100 7 false true [(30, 30)] (20, 20) 9 4 (5, 1) (9, 4).

Lemma reset_twice_witness :
  coppelia_active midway_env = false
  /\ snd (reset quiet_sim midway_env)
     = snd (reset quiet_sim (fst (reset quiet_sim midway_env)))
  /\ total_steps (fst (reset quiet_sim midway_env)) = 0
  /\ current_location (fst (reset quiet_sim midway_env)) = (5, 1).
Proof.
  assert (H : coppelia_active midway_env = false) by reflexivity.
  pose proof (reset_twice quiet_sim midway_env H) as R. cbv zeta in R.
  split; [exact H |].
  split; [exact (proj1 R) |].
  split; [exact (proj1 (proj2 R)) |].
  exact (proj1 (proj2 (proj2 (proj2 R)))).
Defined.

Lemma observation_layout_witness :
  (0 < 25)%nat
  /\ List.length (get_observation corner_env) = 29%nat
  /\ label_of corner_env (0, 0) (nth 0 (get_observation corner_env) 0%float).
Proof.
  assert (H : (0 < 25)%nat) by lia.
  pose proof (observation_layout quiet_sim corner_env 0%nat H) as R.
  cbv zeta in R.
  split; [exact H |].
  split; [exact (proj1 R) | exact (proj1 (proj2 R))].
Defined.

(** ** Obstacle proximity *)

(** [d] is the Manhattan distance from the agent to a nearest obstacle. *)
Definition nearest_obstacle_at (self : GridWorldEnv) (d : Z) : Prop :=
  (exists o, In o (redspots self) /\ manhattan (current_location self) o = d)
  /\ forall o, In o (redspots self) -> d <= manhattan (current_location self) o.

Definition obstacles_in_grid (self : GridWorldEnv) : Prop :=
  forall o, In o (redspots self) ->
    0 <= fst o < fst (grid_dimensions self)
    /\ 0 <= snd o < snd (grid_dimensions self).

Definition offset_to (self : GridWorldEnv) (o : Z * Z) : Z * Z :=
  (fst o - fst (current_location self), snd o - snd (current_location self)).

Lemma offset_distance_manhattan (self : GridWorldEnv) (o : Z * Z) :
  offset_distance (offset_to self o) = manhattan (current_location self) o.
Proof. unfold offset_distance, offset_to, manhattan. simpl. lia. Qed.

Lemma window_hit_obstacle (self : GridWorldEnv) (c : Z * Z) :
  window_hit self c = true ->
  exists o, In o (redspots self) /\ offset_to self o = c.
Proof.
  unfold window_hit. rewrite andb_true_iff. intros [_ Hin].
  apply contains_In in Hin. eexists. split; [exact Hin |].
  unfold offset_to. simpl. destruct c as [dx dy]. simpl. f_equal; lia.
Qed.

Lemma obstacle_window_hit (self : GridWorldEnv) (o : Z * Z) :
  obstacles_in_grid self -> In o (redspots self) ->
  window_hit self (offset_to self o) = true.
Proof.
  intros Hgrid Hin. destruct (Hgrid o Hin) as [Hx Hy].
  unfold window_hit, offset_to. simpl.
  replace (fst (current_location self) + (fst o - fst (current_location self)))
    with (fst o) by lia.
  replace (snd (current_location self) + (snd o - snd (current_location self)))
    with (snd o) by lia.
  apply andb_true_iff. split.
  - apply negb_true_iff. rewrite !orb_false_iff, !Z.geb_leb.
    repeat split; [apply Z.ltb_ge | apply Z.leb_gt | apply Z.ltb_ge
                  | apply Z.leb_gt]; lia.
  - apply contains_In. destruct o; exact Hin.
Qed.

(** The scan finds nothing only if no obstacle is in the 9 x 9 window. *)
Lemma nearest_in_window_none (self : GridWorldEnv) (o : Z * Z) :
  obstacles_in_grid self -> nearest_in_window self = None ->
  In o (redspots self) -> 4 < manhattan (current_location self) o.
Proof.
  intros Hgrid E Hin. rewrite nearest_in_window_scan in E.
  pose proof (scan_spec self window None) as H. rewrite E in H.
  destruct H as [_ Hall].
  destruct (Z_lt_le_dec 4 (manhattan (current_location self) o)) as [| Hle];
    [assumption | exfalso].
  assert (Hw : In (offset_to self o) window).
  { apply in_window. unfold offset_to, manhattan in Hle |- *. simpl. lia. }
  specialize (Hall _ Hw). rewrite (obstacle_window_hit self o Hgrid Hin) in Hall.
  discriminate.
Qed.

(** What the scan finds is the distance of some obstacle, at most 8, and
    no obstacle of the window is nearer. *)
Lemma nearest_in_window_some (self : GridWorldEnv) (m : Z) :
  obstacles_in_grid self -> nearest_in_window self = Some m ->
  (exists o, In o (redspots self) /\ manhattan (current_location self) o = m)
  /\ m <= 8
  /\ forall o, In o (redspots self) ->
       manhattan (current_location self) o <= 4 ->
       m <= manhattan (current_location self) o.
Proof.
  intros Hgrid E. pose proof (nearest_in_window_bounds self m E) as Hm.
  rewrite nearest_in_window_scan in E.
  pose proof (scan_spec self window None) as H. rewrite E in H.
  destruct H as [[H | [c [Hc [Hhit Hd]]]] [_ Hall]]; [discriminate |].
  split; [| split; [lia |]].
  - destruct (window_hit_obstacle self c Hhit) as [o [Hin Ho]].
    exists o. split; [exact Hin |].
    rewrite <- offset_distance_manhattan, Ho. exact Hd.
  - intros o Hin Hle. rewrite <- offset_distance_manhattan.
    apply Hall; [| apply obstacle_window_hit; assumption].
    apply in_window. unfold offset_to, manhattan in Hle |- *. simpl. lia.
Qed.

Lemma proximity_of_distance_far (m : Z) :
  5 <= m <= 8 -> proximity_of_distance m = 0.0%float.
Proof.
  intros H.
  assert (m = 5 \/ m = 6 \/ m = 7 \/ m = 8) as [-> | [-> | [-> | ->]]] by lia;
    vm_compute; reflexivity.
Qed.

(** C4: with all obstacles inside the grid, the proximity is 0.0 when no
    obstacle is within Manhattan distance 8, and otherwise it is
    [max(0, 1 - 0.2 d)] for the Manhattan distance [d] to a nearest
    obstacle; distance 1 gives 0.8, and the value is between 0 and 1. *)
Theorem obstacle_proximity_spec (self : GridWorldEnv)
    (Hgrid : obstacles_in_grid self) :
  ((forall o, In o (redspots self) ->
      8 < manhattan (current_location self) o) ->
   calculate_obstacle_proximity self = 0.0%float)
  /\ (forall d, nearest_obstacle_at self d -> d <= 8 ->
        calculate_obstacle_proximity self
        = fmax 0.0 (1.0 - float_of_int d * 0.2)%float)
  /\ (nearest_obstacle_at self 1 ->
        calculate_obstacle_proximity self = 0.8%float)
  /\ PrimFloat.leb 0 (calculate_obstacle_proximity self) = true
  /\ PrimFloat.leb (calculate_obstacle_proximity self) 1 = true.
Proof.
  assert (Hnearest : forall d, nearest_obstacle_at self d -> d <= 8 ->
            calculate_obstacle_proximity self = proximity_of_distance d).
  { intros d [[o [Hin Hd]] Hmin] Hd8.
    assert (Hd0 : 0 <= d) by (subst d; unfold manhattan; lia).
    unfold calculate_obstacle_proximity.
    destruct (nearest_in_window self) as [m |] eqn:E.
    - destruct (nearest_in_window_some self m Hgrid E)
        as [[o' [Hin' Hm]] [Hm8 Hall]].
      pose proof (Hmin o' Hin') as Hdm. rewrite Hm in Hdm.
      destruct (Z_le_gt_dec d 4) as [Hd4 | Hd5].
      + assert (m <= d) by (rewrite <- Hd; apply Hall; [exact Hin | lia]).
        replace m with d by lia. reflexivity.
      + rewrite !proximity_of_distance_far by lia. reflexivity.
    - pose proof (nearest_in_window_none self o Hgrid E Hin) as Hfar.
      rewrite proximity_of_distance_far by lia. reflexivity. }
  split; [| split; [| split]].
  - intros Hfar. unfold calculate_obstacle_proximity.
    destruct (nearest_in_window self) as [m |] eqn:E; [| reflexivity].
    destruct (nearest_in_window_some self m Hgrid E) as [[o [Hin Hm]] [Hm8 _]].
    specialize (Hfar o Hin). lia.
  - exact Hnearest.
  - intros H1. rewrite (Hnearest 1 H1) by lia. vm_compute. reflexivity.
  - generalize (calculate_obstacle_proximity_values self).
    generalize (calculate_obstacle_proximity self). intros p Hp.
    vm_compute in Hp.
    repeat (destruct Hp as [<- | Hp]; [split; vm_compute; reflexivity |]).
    destruct Hp.
Qed.

(** An obstacle right below the agent, a second one far away. *)
Definition beside_obstacle_env : GridWorldEnv :=
  mkEnv (40, 40) 100 0 false true [(30, 30); (5, 2)] (20, 20) 5 1 (5, 1) (5, 1).

Lemma obstacle_proximity_spec_witness :
  obstacles_in_grid beside_obstacle_env
  /\ nearest_obstacle_at beside_obstacle_env 1
  /\ calculate_obstacle_proximity beside_obstacle_env = 0.8%float.
Proof.
  assert (Hgrid : obstacles_in_grid beside_obstacle_env).
  { intros o [<- | [<- | []]]; simpl; lia. }
  assert (Hnear : nearest_obstacle_at beside_obstacle_env 1).
  { split.
    - exists (5, 2). split; [right; left; reflexivity | reflexivity].
    - intros o [<- | [<- | []]]; vm_compute; discriminate. }
  split; [exact Hgrid |]. split; [exact Hnear |].
  exact (proj1 (proj2 (proj2 (obstacle_proximity_spec beside_obstacle_env Hgrid)))
           Hnear).
Defined.

(** ** World generation *)

Definition in_grid (dims p : Z * Z) : Prop :=
  0 <= fst p < fst dims /\ 0 <= snd p < snd dims.

Lemma randint_range (a b raw v : Z) : randint a b raw = Some v -> a <= v <= b.
Proof.
  unfold randint. destruct (b <? a) eqn:E; [discriminate |].
  apply Z.ltb_ge in E. intros H. inversion H.
  pose proof (Z.mod_pos_bound raw (b - a + 1)). lia.
Qed.

(** The loops draw two raw values per round. *)
Lemma list_pair_ind {A : Type} (P : list A -> Prop) :
  P [] -> (forall a, P [a]) -> (forall a b l, P l -> P (a :: b :: l)) ->
  forall l, P l.
Proof.
  intros Hnil Hone Hstep. fix IH 1.
  intros [| a [| b l]]; [exact Hnil | apply Hone | apply Hstep, IH].
Qed.

Lemma place_obstacles_spec (dims : Z * Z) (num : Z) (raws : list Z) :
  forall spots spots' rest,
    place_obstacles dims num spots raws = Generated spots' rest ->
    NoDup spots -> Forall (in_grid dims) spots ->
    NoDup spots' /\ Forall (in_grid dims) spots'
    /\ (Z.of_nat (List.length spots) <= num ->
        Z.of_nat (List.length spots') = num).
Proof.
  induction raws as [| r | rx ry raws IH] using list_pair_ind;
    intros spots spots' rest Hgen Hnd Hin.
  - simpl in Hgen.
    destruct (Z.of_nat (List.length spots) <? num) eqn:E; [discriminate |].
    inversion Hgen; subst. apply Z.ltb_ge in E.
    repeat split; [assumption | assumption | lia].
  - simpl in Hgen.
    destruct (Z.of_nat (List.length spots) <? num) eqn:E; [discriminate |].
    inversion Hgen; subst. apply Z.ltb_ge in E.
    repeat split; [assumption | assumption | lia].
  - simpl in Hgen.
    destruct (Z.of_nat (List.length spots) <? num) eqn:E.
    + apply Z.ltb_lt in E.
      destruct (randint 0 (fst dims - 1) rx) as [ox |] eqn:Ex; [| discriminate].
      destruct (randint 0 (snd dims - 1) ry) as [oy |] eqn:Ey; [| discriminate].
      apply randint_range in Ex. apply randint_range in Ey.
      destruct (contains spots (ox, oy)) eqn:Ec; simpl in Hgen.
      * destruct (IH _ _ _ Hgen Hnd Hin) as (H1 & H2 & H3).
        repeat split; [assumption | assumption | exact H3].
      * apply contains_not_In in Ec.
        assert (Hnd' : NoDup (spots ++ [(ox, oy)])).
        { apply NoDup_app; [exact Hnd | repeat constructor; intros [] |].
          intros p Hp [<- | []]. contradiction. }
        assert (Hin' : Forall (in_grid dims) (spots ++ [(ox, oy)])).
        { apply Forall_app. split; [exact Hin |].
          repeat constructor; simpl; lia. }
        destruct (IH _ _ _ Hgen Hnd' Hin') as (H1 & H2 & H3).
        repeat split; [assumption | assumption |].
        intros _. apply H3. rewrite length_app. simpl. lia.
    + inversion Hgen; subst. apply Z.ltb_ge in E.
      repeat split; [assumption | assumption | lia].
Qed.

Lemma place_goal_spec (dims : Z * Z) (spots : list (Z * Z)) (raws : list Z) :
  forall g rest,
    place_goal dims spots raws = Generated g rest ->
    ~ In g spots /\ in_grid dims g.
Proof.
  induction raws as [| r | rx ry raws IH] using list_pair_ind;
    intros g rest Hgen; simpl in Hgen; try discriminate.
  destruct (randint 0 (fst dims - 1) rx) as [gx |] eqn:Ex; [| discriminate].
  destruct (randint 0 (snd dims - 1) ry) as [gy |] eqn:Ey; [| discriminate].
  apply randint_range in Ex. apply randint_range in Ey.
  destruct (contains spots (gx, gy)) eqn:Ec; simpl in Hgen.
  - exact (IH _ _ Hgen).
  - inversion Hgen; subst. apply contains_not_In in Ec.
    split; [exact Ec | split; simpl; lia].
Qed.

Lemma place_agent_spec (dims : Z * Z) (spots : list (Z * Z)) (g : Z * Z)
    (raws : list Z) :
  forall a rest,
    place_agent dims spots g raws = Generated a rest ->
    ~ In a spots /\ a <> g /\ in_grid dims a.
Proof.
  induction raws as [| r | rx ry raws IH] using list_pair_ind;
    intros a rest Hgen; simpl in Hgen; try discriminate.
  destruct (randint 0 (fst dims - 1) rx) as [ax |] eqn:Ex; [| discriminate].
  destruct (randint 0 (snd dims - 1) ry) as [ay |] eqn:Ey; [| discriminate].
  apply randint_range in Ex. apply randint_range in Ey.
  destruct (contains spots (ax, ay)) eqn:Ec; simpl in Hgen.
  - exact (IH _ _ Hgen).
  - destruct (tuple_eqb (ax, ay) g) eqn:Eg; simpl in Hgen.
    + exact (IH _ _ Hgen).
    + inversion Hgen; subst. apply contains_not_In in Ec.
      split; [exact Ec |]. split; [| split; simpl; lia].
      intros E. apply tuple_eqb_eq in E. congruence.
Qed.

(** C7: whatever the random generator hands out, a layout that
    [initialize_grid_environment] produces has pairwise distinct obstacle
    cells, a goal that is not an obstacle, a start cell that is neither an
    obstacle nor the goal, and all of them inside the grid. *)
Theorem generated_layout_invariants (self self' : GridWorldEnv)
    (raws rest : list Z)
    (Hgen : initialize_grid_environment self raws = Generated self' rest) :
  NoDup (redspots self')
  /\ ~ In (goal self') (redspots self')
  /\ ~ In (init_loc self') (redspots self')
  /\ init_loc self' <> goal self'
  /\ Forall (in_grid (grid_dimensions self')) (redspots self')
  /\ in_grid (grid_dimensions self') (goal self')
  /\ in_grid (grid_dimensions self') (init_loc self')
  /\ current_location self' = init_loc self'
  /\ (x self', y self') = init_loc self'
  /\ grid_dimensions self' = grid_dimensions self
  /\ 20 <= Z.of_nat (List.length (redspots self')) <= 50.
Proof.
  unfold initialize_grid_environment in Hgen.
  destruct raws as [| rn raws1]; [discriminate |].
  destruct (randint 20 50 rn) as [num |] eqn:En; [| discriminate].
  apply randint_range in En.
  destruct (place_obstacles _ _ _ _) as [spots raws2 | |] eqn:Eo;
    try discriminate.
  destruct (place_goal _ _ _) as [g raws3 | |] eqn:Eg; try discriminate.
  destruct (place_agent _ _ _ _) as [[ax ay] raws4 | |] eqn:Ea;
    try discriminate.
  inversion Hgen; subst; clear Hgen. simpl.
  destruct (place_obstacles_spec _ _ _ _ _ _ Eo (NoDup_nil _) (Forall_nil _))
    as (Hnd & Hin & Hlen).
  destruct (place_goal_spec _ _ _ _ _ Eg) as [Hg Hgin].
  destruct (place_agent_spec _ _ _ _ _ _ Ea) as (Ha & Hag & Hain).
  simpl in Hlen. specialize (Hlen ltac:(lia)).
  repeat split; try assumption; try reflexivity; try lia;
    try apply Hgin; try apply Hain.
Qed.

(** The state of [__init__] before the generator runs, and a run of the
    generator in which every rejection branch is taken once: an obstacle
    drawn twice, a goal drawn on an obstacle, a start cell drawn on the
    goal. *)
Definition blank_env : GridWorldEnv :=
  mkEnv (40, 40) 100 0 false true [] (0, 0) 0 0 (0, 0) (0, 0).

Definition demo_raws : list Z :=
  0 :: [0; 0; 0; 0]
    ++ flat_map (fun i => [i; 2 * i]) (range 1 20)
    ++ [0; 0; 7; 7; 7; 7; 3; 3].

Lemma generated_layout_invariants_witness :
  exists self',
    initialize_grid_environment blank_env demo_raws = Generated self' []
    /\ goal self' = (7, 7)
    /\ init_loc self' = (3, 3)
    /\ List.length (redspots self') = 20%nat
    /\ NoDup (redspots self')
    /\ ~ In (goal self') (redspots self')
    /\ ~ In (init_loc self') (redspots self')
    /\ init_loc self' <> goal self'.
Proof.
  destruct (initialize_grid_environment blank_env demo_raws)
    as [self' rest | |] eqn:E;
    [| vm_compute in E; discriminate E | vm_compute in E; discriminate E].
  pose proof (generated_layout_invariants blank_env self' demo_raws rest E)
    as H.
  exists self'.
  assert (Hrest : rest = []) by (vm_compute in E; inversion E; reflexivity).
  rewrite Hrest.
  split; [reflexivity |].
  split; [vm_compute in E; inversion E; reflexivity |].
  split; [vm_compute in E; inversion E; reflexivity |].
  split; [vm_compute in E; inversion E; reflexivity |].
  split; [exact (proj1 H) |].
  split; [exact (proj1 (proj2 H)) |].
  split; [exact (proj1 (proj2 (proj2 H))) |].
  exact (proj1 (proj2 (proj2 (proj2 H)))).
Defined.

(** ** Coordinate mapper *)

Definition round_trip_ok (x_grid y_grid : Z) : bool :=
  match grid_to_coordinates x_grid y_grid with
  | Some (cx, cy, _) =>
      match move_to_grid cx cy with
      | Returned (Some (gx, gy)) => (gx =? x_grid) && (gy =? y_grid)
      | _ => false
      end
  | None => false
  end.

Lemma round_trip_all_cells :
  forallb (fun x_grid => forallb (round_trip_ok x_grid) (range 0 41))
          (range 0 41) = true.
Proof. vm_compute. reflexivity. Qed.

(** C10: on every cell of [0..40] x [0..40], [grid_to_coordinates] returns
    coordinates and [move_to_grid] maps their first two components back to
    the cell itself. *)
Theorem grid_round_trip (x_grid y_grid : Z)
    (Hx : 0 <= x_grid <= 40) (Hy : 0 <= y_grid <= 40) :
  exists cx cy cz,
    grid_to_coordinates x_grid y_grid = Some (cx, cy, cz)
    /\ move_to_grid cx cy = Returned (Some (x_grid, y_grid)).
Proof.
  pose proof round_trip_all_cells as H.
  rewrite forallb_forall in H.
  specialize (H x_grid ltac:(apply in_range; lia)).
  rewrite forallb_forall in H.
  specialize (H y_grid ltac:(apply in_range; lia)).
  unfold round_trip_ok in H.
  destruct (grid_to_coordinates x_grid y_grid) as [[[cx cy] cz] |];
    [| discriminate].
  exists cx, cy, cz. split; [reflexivity |].
  destruct (move_to_grid cx cy) as [[[gx gy] |] | exc]; try discriminate.
  apply andb_true_iff in H. destruct H as [Ex Ey].
  apply Z.eqb_eq in Ex, Ey. subst. reflexivity.
Qed.

Lemma grid_round_trip_witness :
  0 <= 40 <= 40 /\ 0 <= 17 <= 40
  /\ exists cx cy cz,
       grid_to_coordinates 40 17 = Some (cx, cy, cz)
       /\ move_to_grid cx cy = Returned (Some (40, 17)).
Proof.
  assert (Hx : 0 <= 40 <= 40) by lia.
  assert (Hy : 0 <= 17 <= 40) by lia.
  split; [exact Hx |]. split; [exact Hy |].
  exact (grid_round_trip 40 17 Hx Hy).
Defined.

(** ** Bezier curve through two control points *)

(** A finite float minus itself is [+0]. *)
Lemma SFsub_self (sf : spec_float) :
  (exists s, sf = S754_zero s) \/ (exists s m e, sf = S754_finite s m e) ->
  SFsub prec emax sf sf = S754_zero false.
Proof.
  intros [[s ->] | [s [m [e ->]]]].
  - destruct s; reflexivity.
  - cbn [SFsub]. rewrite Z.sub_diag. reflexivity.
Qed.

Lemma Prim2SF_finite (z : float) :
  is_finite z = true ->
  (exists s, Prim2SF z = S754_zero s)
  \/ (exists s m e, Prim2SF z = S754_finite s m e).
Proof.
  unfold is_finite, Prim2SF. intros H.
  destruct (is_nan z); [discriminate |].
  destruct (is_infinity z); [discriminate |].
  destruct (is_zero z); [left; eexists; reflexivity |].
  destruct (Z.frexp z) as [r ex].
  destruct (shr_fexp _ _ _ _ _) as [sh e'].
  destruct (shr_m sh); [left | right | left]; repeat eexists; reflexivity.
Qed.

Lemma sub_self_finite (z : float) :
  is_finite z = true -> (z - z)%float = 0%float.
Proof.
  intros H. apply Prim2SF_inj. rewrite sub_spec. unfold SF64sub.
  rewrite (SFsub_self _ (Prim2SF_finite z H)). reflexivity.
Qed.

(** The first two coordinates of the point at [t] on the curve through
    [(0, 0, _)] and [(1, 0, _)], operation by operation as
    [bezier_recursive] computes them once the binomial coefficients and
    the powers of a curve of degree one are put in. *)
Definition line_xy (t : float) : float * float :=
  let w0 := (1 * (1 - t) * 1)%float in
  let w1 := (1 * 1 * t)%float in
  let total_weight := (0 + w0 + w1)%float in
  let px := (0 + w0 * 0 + w1 * 1)%float in
  let py := (0 + w0 * 0 + w1 * 0)%float in
  if PrimFloat.ltb 0 total_weight
  then ((px / total_weight)%float, (py / total_weight)%float)
  else (px, py).

(** One round of the length loop with the height left out. *)
Definition line_length_term (subdivisions : Z) (acc : float * (float * float))
    (i : Z) : float * (float * float) :=
  let '(total_length, (prev_x, prev_y)) := acc in
  let '(cx, cy) := line_xy (float_of_int i / float_of_int subdivisions)%float in
  ((total_length + norm ((cx - prev_x)%float, (cy - prev_y)%float, 0%float))%float,
   (cx, cy)).

Lemma line_length_1000 :
  fst (fold_left (line_length_term 1000) (range 1 1001)
                 (0.0%float, line_xy 0%float)) = 1.0%float.
Proof. vm_compute. reflexivity. Qed.

Section TwoControlPoints.

Variable comb : Z -> Z -> float.
Variable power : float -> Z -> float.
Variable initial_z : float.
(** The orientation entries of the two control points. *)
Variables q0 q1 q2 q3 q4 q5 q6 q7 : float.

Hypothesis comb_1_0 : comb 1 0 = 1.0%float.
Hypothesis comb_1_1 : comb 1 1 = 1.0%float.
Hypothesis power_0 : forall b, power b 0 = 1.0%float.
Hypothesis power_1 : forall b, power b 1 = b.

Definition two_points : list float :=
  [0; 0; 0; q0; q1; q2; q3; 1; 0; 0; q4; q5; q6; q7]%float.

Lemma bezier_recursive_two_points (t : float) :
  bezier_recursive comb power initial_z two_points t
  = (fst (line_xy t), snd (line_xy t), initial_z).
Proof.
  unfold bezier_recursive, two_points.
  change (Z.of_nat (List.length _) / 7 - 1) with 1.
  change (range 0 (1 + 1)) with [0; 1].
  cbn [fold_left]. unfold bezier_term.
  change (1 - 0) with 1. change (1 - 1) with 0.
  rewrite comb_1_0, comb_1_1, !power_0, !power_1.
  change (slice3 _ (0 * 7)) with ((0, 0, 0)%float : vec3).
  change (slice3 _ (1 * 7)) with ((1, 0, 0)%float : vec3).
  unfold vadd, vscale, vdiv, line_xy. cbv zeta.
  destruct (PrimFloat.ltb 0 _); reflexivity.
Qed.

Lemma bezier_recursive_height (ctrlPts : list float) (t : float) :
  snd (bezier_recursive comb power initial_z ctrlPts t) = initial_z.
Proof.
  unfold bezier_recursive.
  destruct (fold_left _ _ _) as [point total_weight].
  destruct (if PrimFloat.ltb 0 total_weight then _ else _) as [[p0 p1] p2].
  reflexivity.
Qed.

Hypothesis initial_z_finite : is_finite initial_z = true.

(** The length loop does not see the height: both ends of every chord
    carry [initial_z]. *)
Lemma length_loop_planar (l : list Z) :
  forall (total px py : float),
    fst (fold_left (length_term comb power initial_z two_points 1000) l
                   (total, (px, py, initial_z)))
    = fst (fold_left (line_length_term 1000) l (total, (px, py))).
Proof.
  induction l as [| i l IH]; intros total px py; [reflexivity |].
  cbn [fold_left]. unfold length_term at 2, line_length_term at 2.
  rewrite bezier_recursive_two_points.
  destruct (line_xy _) as [cx cy]. cbn [fst snd vsub].
  rewrite (sub_self_finite initial_z initial_z_finite).
  apply IH.
Qed.

Lemma calculate_total_length_two_points :
  calculate_total_length comb power initial_z two_points 1000 = 1.0%float.
Proof.
  unfold calculate_total_length.
  rewrite bezier_recursive_two_points.
  change (1000 + 1) with 1001.
  rewrite length_loop_planar.
  rewrite <- line_length_1000. destruct (line_xy 0); reflexivity.
Qed.

End TwoControlPoints.

(** C8: for the control points [(0, 0, 0, ...)] and [(1, 0, 0, ...)] the
    curve evaluated at 0 and at 1 has the first two coordinates of the two
    end points, every evaluated point has the height [initial_z], and the
    length over 1000 subdivisions differs from 1.0 by less than 1e-9. *)
Theorem bezier_two_points_line (comb : Z -> Z -> float)
    (power : float -> Z -> float) (initial_z : float)
    (q0 q1 q2 q3 q4 q5 q6 q7 : float)
    (comb_1_0 : comb 1 0 = 1.0%float) (comb_1_1 : comb 1 1 = 1.0%float)
    (power_0 : forall b, power b 0 = 1.0%float)
    (power_1 : forall b, power b 1 = b)
    (initial_z_finite : is_finite initial_z = true) :
  let ctrlPts := two_points q0 q1 q2 q3 q4 q5 q6 q7 in
  bezier_recursive comb power initial_z ctrlPts 0 = (0, 0, initial_z)%float
  /\ bezier_recursive comb power initial_z ctrlPts 1 = (1, 0, initial_z)%float
  /\ (forall pts t, snd (bezier_recursive comb power initial_z pts t) = initial_z)
  /\ PrimFloat.leb
       (abs (calculate_total_length comb power initial_z ctrlPts 1000 - 1))
       1e-9 = true.
Proof.
  cbv zeta. split; [| split; [| split]].
  - rewrite bezier_recursive_two_points by assumption. reflexivity.
  - rewrite bezier_recursive_two_points by assumption. reflexivity.
  - intros pts t. apply bezier_recursive_height.
  - rewrite calculate_total_length_two_points by assumption.
    vm_compute. reflexivity.
Qed.

Lemma bezier_two_points_line_witness :
  comb_upto_1 1 0 = 1.0%float
  /\ comb_upto_1 1 1 = 1.0%float
  /\ (forall b, power_upto_1 b 0 = 1.0%float)
  /\ (forall b, power_upto_1 b 1 = b)
  /\ is_finite 0.12 = true
  /\ bezier_recursive comb_upto_1 power_upto_1 0.12
       (two_points 0 0 0 1 0 0 0 1) 1 = (1, 0, 0.12)%float
  /\ PrimFloat.leb
       (abs (calculate_total_length comb_upto_1 power_upto_1 0.12
               (two_points 0 0 0 1 0 0 0 1) 1000 - 1))
       1e-9 = true.
Proof.
  assert (H1 : comb_upto_1 1 0 = 1.0%float) by reflexivity.
  assert (H2 : comb_upto_1 1 1 = 1.0%float) by reflexivity.
  assert (H3 : forall b, power_upto_1 b 0 = 1.0%float) by (intros b; reflexivity).
  assert (H4 : forall b, power_upto_1 b 1 = b) by (intros b; reflexivity).
  assert (H5 : is_finite 0.12 = true) by reflexivity.
  pose proof (bezier_two_points_line comb_upto_1 power_upto_1 0.12
                0 0 0 1 0 0 0 1 H1 H2 H3 H4 H5) as R.
  cbv zeta in R.
  repeat (split; [assumption |]).
  split; [exact (proj1 (proj2 R)) | exact (proj2 (proj2 (proj2 R)))].
Defined.

(** * Further properties of the environment *)

(** ** Well-formed states *)

(** The two copies of the position agree. *)
Definition coherent (self : GridWorldEnv) : Prop :=
  current_location self = (x self, y self).

(** A layout as the generator produces it. *)
Definition layout_ok (self : GridWorldEnv) : Prop :=
  in_grid (grid_dimensions self) (goal self)
  /\ in_grid (grid_dimensions self) (init_loc self)
  /\ Forall (in_grid (grid_dimensions self)) (redspots self)
  /\ NoDup (redspots self)
  /\ ~ In (goal self) (redspots self)
  /\ ~ In (init_loc self) (redspots self)
  /\ init_loc self <> goal self.

Definition well_formed (self : GridWorldEnv) : Prop :=
  coherent self
  /\ in_grid (grid_dimensions self) (current_location self)
  /\ layout_ok self.

(** The fields a step and a reset never write. *)
Definition same_layout (a b : GridWorldEnv) : Prop :=
  grid_dimensions a = grid_dimensions b
  /\ max_steps a = max_steps b
  /\ redspots a = redspots b
  /\ goal a = goal b
  /\ init_loc a = init_loc b.

Lemma same_layout_refl (a : GridWorldEnv) : same_layout a a.
Proof. repeat split. Qed.

Lemma same_layout_trans (a b c : GridWorldEnv) :
  same_layout a b -> same_layout b c -> same_layout a c.
Proof.
  intros (A1 & A2 & A3 & A4 & A5) (B1 & B2 & B3 & B4 & B5).
  repeat split; congruence.
Qed.

Lemma layout_ok_same (a b : GridWorldEnv) :
  same_layout a b -> layout_ok a -> layout_ok b.
Proof.
  intros (E1 & _ & E3 & E4 & E5). unfold layout_ok.
  rewrite E1, E3, E4, E5. auto.
Qed.

Lemma initialize_grid_environment_fields (self self' : GridWorldEnv)
    (raws rest : list Z) :
  initialize_grid_environment self raws = Generated self' rest ->
  well_formed self'
  /\ current_location self' = init_loc self'
  /\ grid_dimensions self' = grid_dimensions self
  /\ max_steps self' = max_steps self
  /\ total_steps self' = total_steps self
  /\ use_coppeliasim self' = use_coppeliasim self
  /\ simulation_mode self' = simulation_mode self
  /\ 20 <= Z.of_nat (List.length (redspots self')) <= 50.
Proof.
  intros Hgen. unfold initialize_grid_environment in Hgen.
  destruct raws as [| rn raws1]; [discriminate |].
  destruct (randint 20 50 rn) as [num |] eqn:En; [| discriminate].
  apply randint_range in En.
  destruct (place_obstacles _ _ _ _) as [spots raws2 | |] eqn:Eo;
    try discriminate.
  destruct (place_goal _ _ _) as [g raws3 | |] eqn:Eg; try discriminate.
  destruct (place_agent _ _ _ _) as [[ax ay] raws4 | |] eqn:Ea;
    try discriminate.
  inversion Hgen; subst; clear Hgen.
  destruct (place_obstacles_spec _ _ _ _ _ _ Eo (NoDup_nil _) (Forall_nil _))
    as (Hnd & Hin & Hlen).
  destruct (place_goal_spec _ _ _ _ _ Eg) as [Hg Hgin].
  destruct (place_agent_spec _ _ _ _ _ _ Ea) as (Ha & Hag & Hain).
  simpl in Hlen. specialize (Hlen ltac:(lia)).
  unfold well_formed, coherent, layout_ok. simpl.
  repeat split; try assumption; try reflexivity; try lia;
    try apply Hgin; try apply Hain.
Qed.

Lemma move_in_grid (self : GridWorldEnv) (action : Z) :
  in_grid (grid_dimensions self) (x self, y self) ->
  in_grid (grid_dimensions self) (move self action).
Proof.
  unfold in_grid, move. simpl. intros [Hx Hy].
  destruct (action =? UP); [simpl; lia |].
  destruct (action =? DOWN); [simpl; lia |].
  destruct (action =? LEFT); [simpl; lia |].
  destruct (action =? RIGHT); simpl; lia.
Qed.

Lemma advance_same_layout (sim : Simulator) (self : GridWorldEnv) (action : Z) :
  same_layout self (advance sim self action).
Proof.
  destruct (advance_fields sim self action) as (E1 & E2 & _ & E3 & E4 & E5 & _).
  repeat split; symmetry; assumption.
Qed.

Lemma advance_well_formed (sim : Simulator) (self : GridWorldEnv) (action : Z) :
  well_formed self -> well_formed (advance sim self action).
Proof.
  intros (Hco & Hpos & Hlay).
  destruct (advance_fields sim self action)
    as (E1 & _ & _ & _ & _ & _ & Exy & Ecur).
  split; [| split].
  - unfold coherent. rewrite Ecur, Exy. reflexivity.
  - rewrite Ecur, E1. apply move_in_grid. rewrite <- Hco. exact Hpos.
  - exact (layout_ok_same _ _ (advance_same_layout sim self action) Hlay).
Qed.

Lemma step_state (sim : Simulator) (self : GridWorldEnv) (action : Z) :
  fst (step sim self action) = advance sim self action.
Proof. rewrite step_unfold. reflexivity. Qed.

Lemma advance_flags (sim : Simulator) (self : GridWorldEnv) (action : Z) :
  coppelia_active self = false ->
  use_coppeliasim (advance sim self action) = use_coppeliasim self
  /\ simulation_mode (advance sim self action) = simulation_mode self.
Proof.
  intros Hgrid. unfold advance. destruct (move self action) as [nx ny].
  unfold coppelia_active in *. simpl. rewrite Hgrid. simpl. split; reflexivity.
Qed.

(** X1: the constructor, when it produces an environment, produces a
    well-formed one in grid-only mode with a zero step counter and the
    agent on its start cell. *)
Theorem constructor_well_formed (dims : Z * Z) (steps_limit : Z)
    (raws rest : list Z) (self : GridWorldEnv)
    (Hinit : GridWorldEnv_init dims steps_limit raws = Generated self rest) :
  well_formed self
  /\ current_location self = init_loc self
  /\ grid_dimensions self = dims
  /\ max_steps self = steps_limit
  /\ total_steps self = 0
  /\ coppelia_active self = false
  /\ 20 <= Z.of_nat (List.length (redspots self)) <= 50.
Proof.
  unfold GridWorldEnv_init in Hinit.
  assert (Hfrom : exists raws', initialize_grid_environment
                    (unplaced dims steps_limit) raws' = Generated self rest).
  { destruct (initialize_grid_environment (unplaced dims steps_limit) raws)
      as [s r | |] eqn:E; [| | discriminate].
    - exists raws. rewrite E. exact Hinit.
    - eexists. exact Hinit. }
  destruct Hfrom as [raws' E].
  destruct (initialize_grid_environment_fields _ _ _ _ E)
    as (Hwf & Hcur & Hd & Hm & Ht & Hu & Hs & Hlen).
  unfold coppelia_active. rewrite Hu. simpl in *.
  repeat split; try assumption; try apply Hwf; try apply Hlen.
Qed.

Lemma constructor_well_formed_witness :
  exists self,
    GridWorldEnv_init (40, 40) 100 demo_raws = Generated self []
    /\ well_formed self
    /\ current_location self = (3, 3)
    /\ total_steps self = 0.
Proof.
  destruct (GridWorldEnv_init (40, 40) 100 demo_raws)
    as [self rest | |] eqn:E;
    [| vm_compute in E; discriminate E | vm_compute in E; discriminate E].
  pose proof (constructor_well_formed (40, 40) 100 demo_raws rest self E) as H.
  exists self.
  assert (Hrest : rest = []) by (vm_compute in E; inversion E; reflexivity).
  rewrite Hrest.
  split; [reflexivity |].
  split; [exact (proj1 H) |].
  split; [vm_compute in E; inversion E; reflexivity |].
  exact (proj1 (proj2 (proj2 (proj2 (proj2 H))))).
Defined.

(** X2: a step keeps a well-formed state well-formed, whatever the action
    and the simulator: the agent stays inside the grid, the layout and the
    step limit are untouched, and the counter grows by one. *)
Theorem step_keeps_well_formed (sim : Simulator) (self : GridWorldEnv)
    (action : Z) (Hwf : well_formed self) :
  let self' := fst (step sim self action) in
  well_formed self'
  /\ same_layout self self'
  /\ total_steps self' = total_steps self + 1.
Proof.
  cbv zeta. rewrite step_state.
  split; [exact (advance_well_formed sim self action Hwf) |].
  split; [exact (advance_same_layout sim self action) |].
  apply (advance_fields sim self action).
Qed.

Lemma demo_env_well_formed : well_formed demo_env.
Proof.
  unfold well_formed, coherent, layout_ok, in_grid. simpl.
  repeat split; try lia; try (intros [E | []]; discriminate E);
    try discriminate.
  - repeat constructor; simpl; lia.
  - repeat constructor. intros [].
Qed.

Lemma step_keeps_well_formed_witness :
  well_formed demo_env
  /\ well_formed (fst (step quiet_sim demo_env DOWN))
  /\ total_steps (fst (step quiet_sim demo_env DOWN)) = 1.
Proof.
  pose proof (step_keeps_well_formed quiet_sim demo_env DOWN
                demo_env_well_formed) as H.
  cbv zeta in H.
  split; [exact demo_env_well_formed |].
  split; [exact (proj1 H) | exact (proj2 (proj2 H))].
Defined.

(** ** How far and how a step moves *)

Lemma move_one_cell (self : GridWorldEnv) (action : Z) :
  in_grid (grid_dimensions self) (x self, y self) ->
  manhattan (x self, y self) (move self action) <= 1.
Proof.
  unfold manhattan, move, in_grid. simpl. intros [Hx Hy].
  destruct (action =? UP); [simpl; lia |].
  destruct (action =? DOWN); [simpl; lia |].
  destruct (action =? LEFT); [simpl; lia |].
  destruct (action =? RIGHT); simpl; lia.
Qed.

Lemma manhattan_triangle (p q r : Z * Z) :
  manhattan p r <= manhattan p q + manhattan q r.
Proof. unfold manhattan. lia. Qed.

Lemma manhattan_sym (p q : Z * Z) : manhattan p q = manhattan q p.
Proof. unfold manhattan. lia. Qed.

(** X4: from a state whose two position fields agree on a cell of the
    grid, a step moves the agent by at most one cell, so the distance to
    the goal reported in [info] changes by at most one; [info] reports the
    new distance and the improvement over the old one. *)
Theorem step_moves_one_cell (sim : Simulator) (self : GridWorldEnv)
    (action : Z) (Hco : coherent self)
    (Hpos : in_grid (grid_dimensions self) (current_location self)) :
  exists self' r,
    step sim self action = (self', Returned r)
    /\ manhattan (current_location self) (current_location self') <= 1
    /\ manhattan_distance (info_of r)
       = manhattan (current_location self') (goal self')
    /\ manhattan_improvement (info_of r)
       = manhattan (current_location self) (goal self)
         - manhattan (current_location self') (goal self')
    /\ -1 <= manhattan_improvement (info_of r) <= 1.
Proof.
  rewrite step_unfold. cbv zeta.
  eexists. eexists. split; [reflexivity |].
  destruct (advance_fields sim self action)
    as (_ & _ & _ & _ & Hg & _ & _ & Hcur).
  assert (Hone : manhattan (current_location self)
                   (current_location (advance sim self action)) <= 1).
  { rewrite Hcur, Hco. apply move_one_cell. rewrite <- Hco. exact Hpos. }
  unfold info_of; simpl. rewrite Hg.
  split; [exact Hone |]. split; [reflexivity |]. split; [reflexivity |].
  pose proof (manhattan_triangle (current_location self)
                (current_location (advance sim self action)) (goal self)).
  pose proof (manhattan_triangle (current_location (advance sim self action))
                (current_location self) (goal self)).
  rewrite (manhattan_sym (current_location (advance sim self action))
             (current_location self)) in *.
  lia.
Qed.

Lemma step_moves_one_cell_witness :
  coherent demo_env
  /\ in_grid (grid_dimensions demo_env) (current_location demo_env)
  /\ exists self' r,
       step quiet_sim demo_env LEFT = (self', Returned r)
       /\ manhattan (current_location demo_env) (current_location self') <= 1
       /\ manhattan_distance (info_of r)
          = manhattan (current_location self') (goal self')
       /\ manhattan_improvement (info_of r)
          = manhattan (current_location demo_env) (goal demo_env)
            - manhattan (current_location self') (goal self')
       /\ -1 <= manhattan_improvement (info_of r) <= 1.
Proof.
  assert (H : coherent demo_env) by reflexivity.
  assert (Hpos : in_grid (grid_dimensions demo_env) (current_location demo_env))
    by (unfold in_grid; simpl; lia).
  split; [exact H |]. split; [exact Hpos |].
  exact (step_moves_one_cell quiet_sim demo_env LEFT H Hpos).
Defined.

(** The agent stands at the wall the action pushes against. *)
Definition at_wall (self : GridWorldEnv) (action : Z) : Prop :=
  (action = UP /\ y self = 0)
  \/ (action = DOWN /\ y self = snd (grid_dimensions self) - 1)
  \/ (action = LEFT /\ x self = 0)
  \/ (action = RIGHT /\ x self = fst (grid_dimensions self) - 1).

(** X7: inside the grid, one of the four moves leaves the agent in place
    exactly when the agent stands at the wall it pushes against, and every
    such blocked move is flagged for the wall penalty. *)
Theorem blocked_moves (sim : Simulator) (self : GridWorldEnv) (action : Z)
    (Hpos : in_grid (grid_dimensions self) (x self, y self))
    (Haction : 0 <= action <= 3) :
  let self' := advance sim self action in
  ((x self', y self') = (x self, y self) <-> at_wall self action)
  /\ (at_wall self action -> hits_wall self' action = true).
Proof.
  cbv zeta.
  destruct (advance_fields sim self action)
    as (Hd & _ & _ & _ & _ & _ & Hxy & _).
  assert (Hx' : x (advance sim self action) = fst (move self action))
    by (rewrite <- Hxy; reflexivity).
  assert (Hy' : y (advance sim self action) = snd (move self action))
    by (rewrite <- Hxy; reflexivity).
  unfold hits_wall. rewrite Hxy, Hx', Hy', Hd.
  unfold at_wall, move, in_grid, UP, DOWN, LEFT, RIGHT in *.
  simpl in Hpos. destruct Hpos as [Hx Hy].
  assert (action = 0 \/ action = 1 \/ action = 2 \/ action = 3)
    as [-> | [-> | [-> | ->]]] by lia; simpl.
  - split.
    + split; [intros E; inversion E; left; split; lia |].
      intros [[_ E] | [[E _] | [[E _] | [E _]]]]; try discriminate E.
      f_equal; lia.
    + intros [[_ E] | [[E _] | [[E _] | [E _]]]]; try discriminate E.
      replace (Z.max 0 (y self - 1)) with 0 by lia. reflexivity.
  - split.
    + split; [intros E; inversion E; right; left; split; lia |].
      intros [[E _] | [[_ E] | [[E _] | [E _]]]]; try discriminate E.
      f_equal; lia.
    + intros [[E _] | [[_ E] | [[E _] | [E _]]]]; try discriminate E.
      replace (Z.min (snd (grid_dimensions self) - 1) (y self + 1))
        with (snd (grid_dimensions self) - 1) by lia.
      rewrite Z.eqb_refl. reflexivity.
  - split.
    + split; [intros E; inversion E; right; right; left; split; lia |].
      intros [[E _] | [[E _] | [[_ E] | [E _]]]]; try discriminate E.
      f_equal; lia.
    + intros [[E _] | [[E _] | [[_ E] | [E _]]]]; try discriminate E.
      replace (Z.max 0 (x self - 1)) with 0 by lia. reflexivity.
  - split.
    + split; [intros E; inversion E; right; right; right; split; lia |].
      intros [[E _] | [[E _] | [[E _] | [_ E]]]]; try discriminate E.
      f_equal; lia.
    + intros [[E _] | [[E _] | [[E _] | [_ E]]]]; try discriminate E.
      replace (Z.min (fst (grid_dimensions self) - 1) (x self + 1))
        with (fst (grid_dimensions self) - 1) by lia.
      rewrite Z.eqb_refl. reflexivity.
Qed.

Lemma blocked_moves_witness :
  in_grid (grid_dimensions corner_env) (x corner_env, y corner_env)
  /\ 0 <= LEFT <= 3
  /\ at_wall corner_env LEFT
  /\ (x (advance quiet_sim corner_env LEFT), y (advance quiet_sim corner_env LEFT))
     = (0, 0)
  /\ hits_wall (advance quiet_sim corner_env LEFT) LEFT = true.
Proof.
  assert (Hpos : in_grid (grid_dimensions corner_env)
                         (x corner_env, y corner_env))
    by (unfold in_grid; simpl; lia).
  assert (Hact : 0 <= LEFT <= 3) by (unfold LEFT; lia).
  assert (Hwall : at_wall corner_env LEFT)
    by (right; right; left; split; reflexivity).
  pose proof (blocked_moves quiet_sim corner_env LEFT Hpos Hact) as H.
  cbv zeta in H.
  split; [exact Hpos |]. split; [exact Hact |]. split; [exact Hwall |].
  split; [exact (proj2 (proj1 H) Hwall) | exact (proj2 H Hwall)].
Defined.

(** ** The flag and the range of the reward *)

(** X5: a step reports [done] exactly when the agent ends on the goal, on
    an obstacle, or the counter has reached the step limit. *)
Theorem step_done_iff (sim : Simulator) (self : GridWorldEnv) (action : Z) :
  exists self' r,
    step sim self action = (self', Returned r)
    /\ (done_of r = true
        <-> current_location self' = goal self'
            \/ In (current_location self') (redspots self')
            \/ total_steps self' >= max_steps self').
Proof.
  rewrite step_unfold. cbv zeta.
  set (self' := advance sim self action).
  eexists. eexists. split; [reflexivity |].
  unfold done_of; simpl.
  destruct (total_steps self' >=? max_steps self') eqn:El.
  - rewrite Z.geb_leb in El. apply Z.leb_le in El.
    split; [intros _; right; right; lia | reflexivity].
  - rewrite Z.geb_leb in El. apply Z.leb_gt in El.
    unfold score.
    destruct (tuple_eqb (current_location self') (goal self')) eqn:Eg.
    + apply tuple_eqb_eq in Eg. simpl. split; [intros _; left; exact Eg | reflexivity].
    + assert (Hne : current_location self' <> goal self')
        by (intros E; apply tuple_eqb_eq in E; congruence).
      destruct (contains (redspots self') (current_location self')) eqn:Ec.
      * apply contains_In in Ec. simpl.
        split; [intros _; right; left; exact Ec | reflexivity].
      * apply contains_not_In in Ec. simpl.
        split; [discriminate |].
        intros [E | [E | E]]; [contradiction | contradiction | lia].
Qed.

Lemma shaping_reward_range (old_m new_m : Z) (p : float) (wall : bool) :
  In p proximity_values ->
  let v := shaping_reward old_m new_m p wall in
  PrimFloat.leb (-20) v = true /\ PrimFloat.leb v 1 = true
  /\ PrimFloat.leb (-0.61) v = true /\ PrimFloat.leb v 0.1 = true.
Proof.
  intros Hp. unfold shaping_reward.
  destruct (new_m <? old_m), (new_m >? old_m), wall;
    vm_compute in Hp;
    repeat (destruct Hp as [<- | Hp]; [repeat split; vm_compute; reflexivity |]);
    destruct Hp.
Qed.

(** X6: every reward lies between -20 and 1, and the reward of a step
    that ends neither on the goal nor on an obstacle lies between -0.61
    and 0.1. *)
Theorem step_reward_range (sim : Simulator) (self : GridWorldEnv) (action : Z) :
  exists self' r,
    step sim self action = (self', Returned r)
    /\ PrimFloat.leb (-20) (reward_of r) = true
    /\ PrimFloat.leb (reward_of r) 1 = true
    /\ (current_location self' <> goal self' ->
        ~ In (current_location self') (redspots self') ->
        PrimFloat.leb (-0.61) (reward_of r) = true
        /\ PrimFloat.leb (reward_of r) 0.1 = true).
Proof.
  rewrite step_unfold. cbv zeta.
  set (self' := advance sim self action).
  set (om := manhattan (current_location self) (goal self)).
  set (nm := manhattan (current_location self') (goal self')).
  pose proof (calculate_obstacle_proximity_values self') as Hp.
  set (p := calculate_obstacle_proximity self') in *.
  destruct (shaping_reward_range om nm p (hits_wall self' action) Hp)
    as (H1 & H2 & H3 & H4).
  eexists. eexists. split; [reflexivity |].
  unfold reward_of; simpl.
  destruct (tuple_eqb (current_location self') (goal self')) eqn:Eg.
  - apply tuple_eqb_eq in Eg. rewrite (score_goal _ _ _ _ _ Eg); simpl.
    repeat split; try reflexivity; contradiction.
  - assert (Hne : current_location self' <> goal self')
      by (intros E; apply tuple_eqb_eq in E; congruence).
    destruct (contains (redspots self') (current_location self')) eqn:Ec.
    + apply contains_In in Ec.
      rewrite (score_obstacle _ _ _ _ _ Hne Ec); simpl.
      repeat split; try reflexivity; contradiction.
    + apply contains_not_In in Ec.
      rewrite (score_shaping _ _ _ _ _ Hne Ec); simpl.
      repeat split; assumption.
Qed.

(** ** Sequences of calls *)

(** What a user of the environment does with it between construction and
    disposal: [step(action)] and [reset()], in some order. *)
Inductive call : Type :=
| Step (action : Z)
| Reset.

Definition perform (sim : Simulator) (self : GridWorldEnv) (c : call)
    : GridWorldEnv :=
  match c with
  | Step action => fst (step sim self action)
  | Reset => fst (reset sim self)
  end.

Definition run (sim : Simulator) (self : GridWorldEnv) (calls : list call)
    : GridWorldEnv :=
  fold_left (perform sim) calls self.

Definition same_flags (a b : GridWorldEnv) : Prop :=
  use_coppeliasim a = use_coppeliasim b
  /\ simulation_mode a = simulation_mode b.

Lemma same_flags_grid_only (a b : GridWorldEnv) :
  same_flags a b -> coppelia_active a = false -> coppelia_active b = false.
Proof. unfold coppelia_active. intros [-> ->]. auto. Qed.

Lemma reset_grid_only_fields (sim : Simulator) (self : GridWorldEnv) :
  coppelia_active self = false ->
  same_layout self (fst (reset sim self))
  /\ same_flags self (fst (reset sim self))
  /\ total_steps (fst (reset sim self)) = 0
  /\ coherent (fst (reset sim self))
  /\ current_location (fst (reset sim self)) = init_loc self.
Proof.
  intros Hgrid. rewrite (reset_grid_only sim self Hgrid).
  unfold same_layout, same_flags, coherent. simpl.
  destruct (init_loc self). repeat split; reflexivity.
Qed.

Lemma reset_well_formed (sim : Simulator) (self : GridWorldEnv) :
  coppelia_active self = false -> layout_ok self ->
  well_formed (fst (reset sim self)).
Proof.
  intros Hgrid Hlay.
  destruct (reset_grid_only_fields sim self Hgrid)
    as (Hsame & _ & _ & Hco & Hcur).
  split; [exact Hco |]. split.
  - rewrite Hcur. destruct Hsame as [<- _]. apply Hlay.
  - exact (layout_ok_same _ _ Hsame Hlay).
Qed.

Lemma perform_grid_only (sim : Simulator) (self : GridWorldEnv) (c : call) :
  coppelia_active self = false ->
  same_layout self (perform sim self c)
  /\ same_flags self (perform sim self c).
Proof.
  intros Hgrid. destruct c as [action |]; simpl.
  - rewrite step_state. split; [apply advance_same_layout |].
    destruct (advance_flags sim self action Hgrid) as [F1 F2].
    split; symmetry; assumption.
  - destruct (reset_grid_only_fields sim self Hgrid) as (H1 & H2 & _).
    split; assumption.
Qed.

Lemma run_grid_only (sim : Simulator) (calls : list call) :
  forall self,
    coppelia_active self = false ->
    same_layout self (run sim self calls)
    /\ same_flags self (run sim self calls).
Proof.
  unfold run. induction calls as [| c calls IH]; intros self Hgrid; simpl.
  - split; [apply same_layout_refl | split; reflexivity].
  - destruct (perform_grid_only sim self c Hgrid) as [Hl Hf].
    destruct (IH _ (same_flags_grid_only _ _ Hf Hgrid)) as [Hl' Hf'].
    split; [exact (same_layout_trans _ _ _ Hl Hl') |].
    destruct Hf as [F1 F2], Hf' as [F1' F2']. split; congruence.
Qed.

Lemma run_well_formed (sim : Simulator) (calls : list call) :
  forall self,
    coppelia_active self = false -> well_formed self ->
    well_formed (run sim self calls).
Proof.
  unfold run. induction calls as [| c calls IH]; intros self Hgrid Hwf; simpl;
    [exact Hwf |].
  destruct (perform_grid_only sim self c Hgrid) as [_ Hf].
  apply IH; [exact (same_flags_grid_only _ _ Hf Hgrid) |].
  destruct c as [action |]; simpl.
  - rewrite step_state. exact (advance_well_formed sim self action Hwf).
  - apply reset_well_formed; [exact Hgrid | apply Hwf].
Qed.

Lemma GridWorldEnv_init_from_generator (dims : Z * Z) (steps_limit : Z)
    (raws rest : list Z) (self : GridWorldEnv) :
  GridWorldEnv_init dims steps_limit raws = Generated self rest ->
  exists raws',
    initialize_grid_environment (unplaced dims steps_limit) raws'
    = Generated self rest.
Proof.
  unfold GridWorldEnv_init. intros Hinit.
  destruct (initialize_grid_environment (unplaced dims steps_limit) raws)
    as [s r | |] eqn:E; [| | discriminate].
  - exists raws. rewrite E. exact Hinit.
  - eexists. exact Hinit.
Qed.

(** X3: every state reached from a constructed environment by [step] and
    [reset] calls, in any order and number, is well-formed, has the layout
    and step limit of the construction, and is still in grid-only mode. *)
Theorem reachable_states_well_formed (sim : Simulator) (dims : Z * Z)
    (steps_limit : Z) (raws rest : list Z) (start : GridWorldEnv)
    (calls : list call)
    (Hinit : GridWorldEnv_init dims steps_limit raws = Generated start rest) :
  well_formed (run sim start calls)
  /\ same_layout start (run sim start calls)
  /\ grid_dimensions (run sim start calls) = dims
  /\ coppelia_active (run sim start calls) = false.
Proof.
  destruct (GridWorldEnv_init_from_generator _ _ _ _ _ Hinit) as [raws' E].
  destruct (initialize_grid_environment_fields _ _ _ _ E)
    as (Hwf & _ & Hd & _ & _ & Hu & Hs & _).
  assert (Hgrid : coppelia_active start = false)
    by (unfold coppelia_active; rewrite Hu; reflexivity).
  destruct (run_grid_only sim calls start Hgrid) as [Hl Hf].
  split; [exact (run_well_formed sim calls start Hgrid Hwf) |].
  split; [exact Hl |].
  split; [destruct Hl as [<- _]; exact Hd |].
  exact (same_flags_grid_only _ _ Hf Hgrid).
Qed.

Lemma reachable_states_well_formed_witness :
  exists start,
    GridWorldEnv_init (40, 40) 100 demo_raws = Generated start []
    /\ well_formed
         (run quiet_sim start [Step LEFT; Step UP; Reset; Step DOWN; Step 9])
    /\ grid_dimensions
         (run quiet_sim start [Step LEFT; Step UP; Reset; Step DOWN; Step 9])
       = (40, 40).
Proof.
  destruct (GridWorldEnv_init (40, 40) 100 demo_raws)
    as [start rest | |] eqn:E;
    [| vm_compute in E; discriminate E | vm_compute in E; discriminate E].
  pose proof (reachable_states_well_formed quiet_sim (40, 40) 100 demo_raws
                rest start [Step LEFT; Step UP; Reset; Step DOWN; Step 9] E)
    as H.
  exists start.
  assert (Hrest : rest = []) by (vm_compute in E; inversion E; reflexivity).
  rewrite Hrest.
  split; [reflexivity |].
  split; [exact (proj1 H) | exact (proj1 (proj2 (proj2 H)))].
Defined.

Lemma run_steps_counter (sim : Simulator) (actions : list Z) :
  forall self,
    total_steps (run sim self (map Step actions))
    = total_steps self + Z.of_nat (List.length actions)
    /\ max_steps (run sim self (map Step actions)) = max_steps self.
Proof.
  unfold run. induction actions as [| a actions IH]; intros self; simpl.
  - split; [lia | reflexivity].
  - destruct (IH (fst (step sim self a))) as [Ht Hm].
    rewrite Ht, Hm, step_state.
    destruct (advance_fields sim self a) as (_ & -> & -> & _).
    split; [lia | reflexivity].
Qed.

(** X8: in grid-only mode an episode cannot outlast the step limit: after
    a [reset] and any [n] steps, the next step has number [n + 1] and
    reports [done] if [n + 1 >= max_steps], wherever the agent is. *)
Theorem episode_ends_by_step_limit (sim : Simulator) (self : GridWorldEnv)
    (actions : list Z) (action : Z)
    (Hgrid : coppelia_active self = false)
    (Hlimit : Z.of_nat (List.length actions) + 1 >= max_steps self) :
  exists self' r,
    step sim (run sim self (Reset :: map Step actions)) action
    = (self', Returned r)
    /\ total_steps self' = Z.of_nat (List.length actions) + 1
    /\ done_of r = true.
Proof.
  unfold run. simpl. fold (run sim (fst (reset sim self)) (map Step actions)).
  destruct (run_steps_counter sim actions (fst (reset sim self))) as [Ht Hm].
  destruct (reset_grid_only_fields sim self Hgrid)
    as ((_ & Hmax & _) & _ & Hzero & _).
  rewrite Hzero in Ht. rewrite <- Hmax in Hm.
  rewrite step_unfold. cbv zeta.
  set (s := run sim (fst (reset sim self)) (map Step actions)) in *.
  destruct (advance_fields sim s action) as (_ & Hm' & Ht' & _).
  eexists. eexists. split; [reflexivity |].
  split; [rewrite Ht', Ht; lia |].
  unfold done_of; simpl.
  destruct (total_steps (advance sim s action) >=? max_steps (advance sim s action))
    eqn:E; [reflexivity |].
  rewrite Z.geb_leb in E. apply Z.leb_gt in E. lia.
Qed.

Lemma episode_ends_by_step_limit_witness :
  coppelia_active last_step_env = false
  /\ Z.of_nat (List.length [RIGHT; RIGHT]) + 1 >= max_steps last_step_env
  /\ exists self' r,
       step quiet_sim
            (run quiet_sim last_step_env (Reset :: map Step [RIGHT; RIGHT]))
            STAY
       = (self', Returned r)
       /\ total_steps self' = Z.of_nat (List.length [RIGHT; RIGHT]) + 1
       /\ done_of r = true.
Proof.
  assert (Hgrid : coppelia_active last_step_env = false) by reflexivity.
  assert (Hlimit : Z.of_nat (List.length [RIGHT; RIGHT]) + 1
                   >= max_steps last_step_env) by (simpl; lia).
  split; [exact Hgrid |]. split; [exact Hlimit |].
  exact (episode_ends_by_step_limit quiet_sim last_step_env [RIGHT; RIGHT]
           STAY Hgrid Hlimit).
Defined.

Lemma reset_depends_on_layout (sim : Simulator) (a b : GridWorldEnv) :
  coppelia_active a = false -> same_layout a b -> same_flags a b ->
  reset sim a = reset sim b.
Proof.
  intros Hgrid (E1 & E2 & E3 & E4 & E5) [F1 F2].
  assert (Hgrid' : coppelia_active b = false)
    by (unfold coppelia_active in *; rewrite <- F1, <- F2; exact Hgrid).
  assert (Hfst : fst (reset sim a) = fst (reset sim b)).
  { rewrite (reset_grid_only sim a Hgrid), (reset_grid_only sim b Hgrid').
    rewrite E1, E2, E3, E4, E5, F1, F2. reflexivity. }
  rewrite (surjective_pairing (reset sim a)), (surjective_pairing (reset sim b)).
  rewrite !reset_observation, Hfst. reflexivity.
Qed.

(** X9: in grid-only mode every episode restarts alike: whatever calls
    were made before, [reset] returns the observation, and reaches the
    state, that a [reset] of the original environment gives. *)
Theorem reset_forgets_history (sim : Simulator) (self : GridWorldEnv)
    (calls : list call) (Hgrid : coppelia_active self = false) :
  reset sim (run sim self calls) = reset sim self.
Proof.
  destruct (run_grid_only sim calls self Hgrid) as [Hl Hf].
  symmetry. apply reset_depends_on_layout; assumption.
Qed.

Lemma reset_forgets_history_witness :
  coppelia_active demo_env = false
  /\ reset quiet_sim (run quiet_sim demo_env [Step UP; Step RIGHT; Reset; Step 2])
     = reset quiet_sim demo_env.
Proof.
  assert (Hgrid : coppelia_active demo_env = false) by reflexivity.
  split; [exact Hgrid |].
  exact (reset_forgets_history quiet_sim demo_env
           [Step UP; Step RIGHT; Reset; Step 2] Hgrid).
Defined.

(** ** What the observation shows *)

Lemma get_observation_window_entry (self : GridWorldEnv) (k : nat) :
  (k < 25)%nat ->
  nth k (get_observation self) 0%float
  = cell_color self (vision_cell self (Z.of_nat (k mod 5) - 2)
                                      (Z.of_nat (k / 5) - 2)).
Proof.
  intros Hk. rewrite get_observation_entries.
  rewrite app_nth1 by (rewrite length_map, length_seq; exact Hk).
  rewrite (nth_indep _ 0%float
             (cell_color self (vision_cell self (Z.of_nat (0 mod 5) - 2)
                                                (Z.of_nat (0 / 5) - 2))))
    by (rewrite length_map, length_seq; exact Hk).
  rewrite (map_nth (fun k => cell_color self
             (vision_cell self (Z.of_nat (k mod 5) - 2) (Z.of_nat (k / 5) - 2)))).
  rewrite seq_nth by exact Hk. reflexivity.
Qed.

Lemma cell_color_goal_only (self : GridWorldEnv) (p : Z * Z) :
  cell_color self p = 2.0%float -> p = goal self.
Proof.
  unfold cell_color.
  destruct (contains (redspots self) p); [float_differs |].
  destruct (tuple_eqb p (goal self)) eqn:E; [| float_differs].
  intros _. apply tuple_eqb_eq. exact E.
Qed.

Lemma cell_color_at_goal (self : GridWorldEnv) (dx dy : Z) :
  ~ In (goal self) (redspots self) ->
  vision_cell self dx dy = goal self ->
  cell_color self (vision_cell self dx dy) = 2.0%float.
Proof.
  intros Hfree ->. unfold cell_color.
  apply contains_not_In in Hfree. rewrite Hfree.
  replace (tuple_eqb (goal self) (goal self)) with true; [reflexivity |].
  symmetry. apply tuple_eqb_eq. reflexivity.
Qed.

Lemma vision_cell_near (self : GridWorldEnv) (dx dy : Z) :
  in_grid (grid_dimensions self) (current_location self) ->
  -2 <= dx <= 2 -> -2 <= dy <= 2 ->
  Z.abs (fst (vision_cell self dx dy) - fst (current_location self)) <= 2
  /\ Z.abs (snd (vision_cell self dx dy) - snd (current_location self)) <= 2.
Proof.
  unfold vision_cell, in_grid. destruct (current_location self) as [ax ay].
  simpl. lia.
Qed.

Lemma vision_cell_inside (self : GridWorldEnv) (dx dy : Z) :
  in_grid (grid_dimensions self)
          (fst (current_location self) + dx, snd (current_location self) + dy) ->
  vision_cell self dx dy
  = (fst (current_location self) + dx, snd (current_location self) + dy).
Proof.
  unfold vision_cell, in_grid. destruct (current_location self) as [ax ay].
  simpl. intros [Hx Hy]. f_equal; lia.
Qed.

(** X10: with the agent and the goal inside the grid and the goal not an
    obstacle, the goal label 2.0 occurs among the 25 window entries of the
    observation exactly when the goal is at most two columns and two rows
    away from the agent. *)
Theorem goal_visible_iff_near (self : GridWorldEnv)
    (Hpos : in_grid (grid_dimensions self) (current_location self))
    (Hgoal : in_grid (grid_dimensions self) (goal self))
    (Hfree : ~ In (goal self) (redspots self)) :
  (exists k, (k < 25)%nat /\ nth k (get_observation self) 0%float = 2.0%float)
  <-> Z.abs (fst (goal self) - fst (current_location self)) <= 2
      /\ Z.abs (snd (goal self) - snd (current_location self)) <= 2.
Proof.
  split.
  - intros [k [Hk E]]. rewrite (get_observation_window_entry self k Hk) in E.
    apply cell_color_goal_only in E. rewrite <- E.
    pose proof (Nat.mod_upper_bound k 5 ltac:(discriminate)).
    assert (k / 5 < 5)%nat by (apply Nat.Div0.div_lt_upper_bound; lia).
    apply vision_cell_near; [exact Hpos | lia | lia].
  - intros [Hx Hy].
    set (dx := fst (goal self) - fst (current_location self)) in *.
    set (dy := snd (goal self) - snd (current_location self)) in *.
    assert (Hcell : vision_cell self dx dy = goal self).
    { rewrite vision_cell_inside.
      - subst dx dy. destruct (goal self); simpl. f_equal; lia.
      - subst dx dy.
        replace (fst (current_location self)
                 + (fst (goal self) - fst (current_location self)))
          with (fst (goal self)) by lia.
        replace (snd (current_location self)
                 + (snd (goal self) - snd (current_location self)))
          with (snd (goal self)) by lia.
        destruct (goal self); exact Hgoal. }
    pose proof (cell_color_at_goal self dx dy Hfree Hcell) as Hcolor.
    clearbody dx dy.
    assert (Hdx : dx = -2 \/ dx = -1 \/ dx = 0 \/ dx = 1 \/ dx = 2) by lia.
    assert (Hdy : dy = -2 \/ dy = -1 \/ dy = 0 \/ dy = 1 \/ dy = 2) by lia.
    exists (Z.to_nat ((dy + 2) * 5 + (dx + 2))).
    destruct Hdx as [-> | [-> | [-> | [-> | ->]]]];
      destruct Hdy as [-> | [-> | [-> | [-> | ->]]]];
      (split; [vm_compute; lia |]);
      rewrite get_observation_window_entry by (vm_compute; lia);
      exact Hcolor.
Qed.

(** The goal two columns to the right of the agent, on the grid's edge. *)
Definition goal_in_sight_env : GridWorldEnv :=
  mkEnv (40, 40) 100 0 false true [(30, 30)] (39, 7) 37 7 (37, 7) (37, 7).

Lemma goal_visible_iff_near_witness :
  in_grid (grid_dimensions goal_in_sight_env) (current_location goal_in_sight_env)
  /\ in_grid (grid_dimensions goal_in_sight_env) (goal goal_in_sight_env)
  /\ ~ In (goal goal_in_sight_env) (redspots goal_in_sight_env)
  /\ exists k, (k < 25)%nat
       /\ nth k (get_observation goal_in_sight_env) 0%float = 2.0%float.
Proof.
  assert (Hpos : in_grid (grid_dimensions goal_in_sight_env)
                         (current_location goal_in_sight_env))
    by (unfold in_grid; simpl; lia).
  assert (Hgoal : in_grid (grid_dimensions goal_in_sight_env)
                          (goal goal_in_sight_env))
    by (unfold in_grid; simpl; lia).
  assert (Hfree : ~ In (goal goal_in_sight_env) (redspots goal_in_sight_env))
    by (simpl; intros [E | []]; discriminate E).
  split; [exact Hpos |]. split; [exact Hgoal |]. split; [exact Hfree |].
  apply (proj2 (goal_visible_iff_near goal_in_sight_env Hpos Hgoal Hfree)).
  simpl. lia.
Defined.

(** Single precision holds every coordinate below 4096 as it is. *)
Lemma float32_small_coordinates :
  forallb (fun c => PrimFloat.Leibniz.eqb (float32 (float_of_int c))
                                          (float_of_int c))
          (range 0 4096) = true.
Proof. vm_compute. reflexivity. Qed.

Lemma float32_coordinate (c : Z) :
  0 <= c < 4096 -> float32 (float_of_int c) = float_of_int c.
Proof.
  intros Hc. pose proof float32_small_coordinates as H.
  rewrite forallb_forall in H.
  apply Leibniz.eqb_spec. apply H. apply in_range. lia.
Qed.

Lemma array_float32_get_observation (self : GridWorldEnv) :
  0 <= fst (current_location self) < 4096 ->
  0 <= snd (current_location self) < 4096 ->
  0 <= fst (goal self) < 4096 -> 0 <= snd (goal self) < 4096 ->
  array_float32 (get_observation self) = get_observation self.
Proof.
  intros H1 H2 H3 H4. rewrite get_observation_entries.
  unfold array_float32. rewrite map_app, map_map. f_equal.
  - apply map_ext. intros k. apply float32_cell_color.
  - simpl. rewrite !float32_coordinate by assumption. reflexivity.
Qed.

(** X11: on a grid of at most 4096 columns and rows, the observation that
    [step] returns from a well-formed state is the vector of
    [get_observation] itself: the conversion to single precision changes
    no entry. *)
Theorem step_observation_exact (sim : Simulator) (self : GridWorldEnv)
    (action : Z) (Hwf : well_formed self)
    (Hwidth : fst (grid_dimensions self) <= 4096)
    (Hheight : snd (grid_dimensions self) <= 4096) :
  exists self' r,
    step sim self action = (self', Returned r)
    /\ observation_of r = get_observation self'.
Proof.
  rewrite step_unfold. cbv zeta.
  eexists. eexists. split; [reflexivity |].
  unfold observation_of; simpl.
  destruct (advance_well_formed sim self action Hwf)
    as (_ & [Hx Hy] & [Hgx Hgy] & _).
  destruct (advance_fields sim self action) as (Hd & _).
  rewrite Hd in *.
  apply array_float32_get_observation; lia.
Qed.

Lemma step_observation_exact_witness :
  well_formed demo_env
  /\ fst (grid_dimensions demo_env) <= 4096
  /\ snd (grid_dimensions demo_env) <= 4096
  /\ exists self' r,
       step quiet_sim demo_env RIGHT = (self', Returned r)
       /\ observation_of r = get_observation self'.
Proof.
  assert (Hw : fst (grid_dimensions demo_env) <= 4096) by (simpl; lia).
  assert (Hh : snd (grid_dimensions demo_env) <= 4096) by (simpl; lia).
  split; [exact demo_env_well_formed |]. split; [exact Hw |].
  split; [exact Hh |].
  exact (step_observation_exact quiet_sim demo_env RIGHT
           demo_env_well_formed Hw Hh).
Defined.

(** ** Standing on an obstacle *)

Lemma proximity_of_distance_one (m : Z) :
  0 <= m <= 8 -> proximity_of_distance m = 1.0%float -> m = 0.
Proof.
  intros Hm. cases_0_8 m; try reflexivity; float_differs.
Qed.

Lemma proximity_of_distance_off (m : Z) :
  1 <= m <= 8 -> PrimFloat.leb (proximity_of_distance m) 0.8 = true.
Proof.
  intros Hm.
  assert (m = 1 \/ m = 2 \/ m = 3 \/ m = 4 \/ m = 5 \/ m = 6 \/ m = 7 \/ m = 8)
    as H by lia.
  repeat (destruct H as [-> | H]; [vm_compute; reflexivity |]).
  subst m. vm_compute. reflexivity.
Qed.

(** X12: with all obstacles inside the grid, the proximity is 1.0 exactly
    when the agent stands on an obstacle cell, and it is at most 0.8 on
    every other cell. *)
Theorem proximity_one_iff_on_obstacle (self : GridWorldEnv)
    (Hgrid : obstacles_in_grid self) :
  (calculate_obstacle_proximity self = 1.0%float
   <-> In (current_location self) (redspots self))
  /\ (~ In (current_location self) (redspots self) ->
      PrimFloat.leb (calculate_obstacle_proximity self) 0.8 = true).
Proof.
  assert (Hzero : forall o, manhattan (current_location self) o = 0 ->
                            o = current_location self).
  { intros [ox oy]. unfold manhattan. destruct (current_location self).
    simpl. intros H. f_equal; lia. }
  assert (Hon : In (current_location self) (redspots self) ->
                nearest_in_window self = Some 0).
  { intros Hin.
    assert (Hd : manhattan (current_location self) (current_location self) = 0)
      by (unfold manhattan; lia).
    destruct (nearest_in_window self) as [m |] eqn:E.
    - destruct (nearest_in_window_some self m Hgrid E) as (_ & _ & Hall).
      pose proof (nearest_in_window_bounds self m E).
      specialize (Hall _ Hin ltac:(lia)). f_equal. lia.
    - pose proof (nearest_in_window_none self _ Hgrid E Hin). lia. }
  unfold calculate_obstacle_proximity. split; [split |].
  - destruct (nearest_in_window self) as [m |] eqn:E; [| float_differs].
    intros H.
    apply (proximity_of_distance_one m (nearest_in_window_bounds self m E)) in H.
    subst m.
    destruct (nearest_in_window_some self 0 Hgrid E) as ([o [Hin Ho]] & _).
    rewrite <- (Hzero o Ho). exact Hin.
  - intros Hin. rewrite (Hon Hin). vm_compute. reflexivity.
  - intros Hoff.
    destruct (nearest_in_window self) as [m |] eqn:E;
      [| vm_compute; reflexivity].
    pose proof (nearest_in_window_bounds self m E) as Hm.
    destruct (nearest_in_window_some self m Hgrid E) as ([o [Hin Ho]] & _).
    apply proximity_of_distance_off.
    assert (m <> 0) by (intros ->; apply Hoff; rewrite <- (Hzero o Ho); exact Hin).
    lia.
Qed.

(** The agent on an obstacle cell. *)
Definition on_obstacle_env : GridWorldEnv :=
  mkEnv (40, 40) 100 1 false true [(30, 30); (5, 2)] (20, 20) 5 2 (5, 1) (5, 2).

Lemma proximity_one_iff_on_obstacle_witness :
  obstacles_in_grid on_obstacle_env
  /\ calculate_obstacle_proximity on_obstacle_env = 1.0%float.
Proof.
  assert (Hgrid : obstacles_in_grid on_obstacle_env).
  { intros o [<- | [<- | []]]; simpl; lia. }
  split; [exact Hgrid |].
  apply (proj2 (proj1 (proximity_one_iff_on_obstacle on_obstacle_env Hgrid))).
  right; left; reflexivity.
Defined.

(** ** Room for a layout, and grids without cells *)

Lemma length_range (a b : Z) : List.length (range a b) = Z.to_nat (b - a).
Proof. unfold range. rewrite length_map, length_seq. reflexivity. Qed.

Definition all_cells (dims : Z * Z) : list (Z * Z) :=
  list_prod (range 0 (fst dims)) (range 0 (snd dims)).

Lemma in_all_cells (dims p : Z * Z) : in_grid dims p -> In p (all_cells dims).
Proof.
  destruct p as [px py]. unfold in_grid, all_cells. simpl. intros [Hx Hy].
  apply in_prod; apply in_range; lia.
Qed.

(** X13: a layout the generator produces fits into the grid with room for
    the goal and the start cell: the number of obstacles plus two is at
    most width times height.  On a grid of fewer than 22 cells the
    generator therefore produces nothing, whatever is drawn. *)
Theorem generated_layout_fits (self self' : GridWorldEnv) (raws rest : list Z)
    (Hgen : initialize_grid_environment self raws = Generated self' rest) :
  Z.of_nat (List.length (redspots self')) + 2
  <= fst (grid_dimensions self) * snd (grid_dimensions self)
  /\ 22 <= fst (grid_dimensions self) * snd (grid_dimensions self).
Proof.
  destruct (initialize_grid_environment_fields _ _ _ _ Hgen)
    as ((_ & Hpos & Hg & Hi & Hall & Hnd & Hgfree & Hifree & Hne)
        & _ & Hd & _ & _ & _ & _ & Hlen).
  rewrite Hd in *.
  assert (Hnodup : NoDup (goal self' :: init_loc self' :: redspots self')).
  { constructor; [| constructor; assumption].
    intros [E | Hin]; [apply Hne; exact E | contradiction]. }
  assert (Hincl : incl (goal self' :: init_loc self' :: redspots self')
                       (all_cells (grid_dimensions self))).
  { intros p [<- | [<- | Hin]]; apply in_all_cells; try assumption.
    rewrite Forall_forall in Hall. apply Hall. exact Hin. }
  pose proof (NoDup_incl_length Hnodup Hincl) as Hle.
  unfold all_cells in Hle. rewrite length_prod, !length_range in Hle.
  simpl in Hle. destruct Hg as [Hgx Hgy].
  assert (Hcells : Z.of_nat (Z.to_nat (fst (grid_dimensions self) - 0)
                             * Z.to_nat (snd (grid_dimensions self) - 0))
                   = fst (grid_dimensions self) * snd (grid_dimensions self)).
  { rewrite Nat2Z.inj_mul, !Z2Nat.id by lia. f_equal; lia. }
  split; lia.
Qed.

Lemma generated_layout_fits_witness :
  exists self',
    initialize_grid_environment blank_env demo_raws = Generated self' []
    /\ Z.of_nat (List.length (redspots self')) + 2 <= 40 * 40.
Proof.
  destruct (initialize_grid_environment blank_env demo_raws)
    as [self' rest | |] eqn:E;
    [| vm_compute in E; discriminate E | vm_compute in E; discriminate E].
  pose proof (generated_layout_fits blank_env self' demo_raws rest E) as H.
  exists self'.
  assert (Hrest : rest = []) by (vm_compute in E; inversion E; reflexivity).
  rewrite Hrest. split; [reflexivity | exact (proj1 H)].
Defined.

Lemma randint_some (a b raw : Z) :
  a <= b -> exists v, randint a b raw = Some v.
Proof.
  intros H. unfold randint.
  replace (b <? a) with false by (symmetry; apply Z.ltb_ge; lia).
  eexists. reflexivity.
Qed.

Lemma place_obstacles_no_error (dims : Z * Z) (num : Z) (raws : list Z) :
  0 < fst dims -> 0 < snd dims ->
  forall spots, place_obstacles dims num spots raws <> ValueError.
Proof.
  intros Hw Hh.
  induction raws as [| r | rx ry raws IH] using list_pair_ind; intros spots;
    simpl; destruct (Z.of_nat (List.length spots) <? num); try discriminate.
  destruct (randint_some 0 (fst dims - 1) rx ltac:(lia)) as [ox ->].
  destruct (randint_some 0 (snd dims - 1) ry ltac:(lia)) as [oy ->].
  destruct (negb (contains spots (ox, oy))); apply IH.
Qed.

Lemma place_goal_no_error (dims : Z * Z) (spots : list (Z * Z))
    (raws : list Z) :
  0 < fst dims -> 0 < snd dims -> place_goal dims spots raws <> ValueError.
Proof.
  intros Hw Hh.
  induction raws as [| r | rx ry raws IH] using list_pair_ind;
    simpl; try discriminate.
  destruct (randint_some 0 (fst dims - 1) rx ltac:(lia)) as [gx ->].
  destruct (randint_some 0 (snd dims - 1) ry ltac:(lia)) as [gy ->].
  destruct (negb (contains spots (gx, gy))); [discriminate | exact IH].
Qed.

Lemma place_agent_no_error (dims : Z * Z) (spots : list (Z * Z)) (g : Z * Z)
    (raws : list Z) :
  0 < fst dims -> 0 < snd dims -> place_agent dims spots g raws <> ValueError.
Proof.
  intros Hw Hh.
  induction raws as [| r | rx ry raws IH] using list_pair_ind;
    simpl; try discriminate.
  destruct (randint_some 0 (fst dims - 1) rx ltac:(lia)) as [ax ->].
  destruct (randint_some 0 (snd dims - 1) ry ltac:(lia)) as [ay ->].
  destruct (_ && _); [discriminate | exact IH].
Qed.

Lemma initialize_grid_environment_no_error (self : GridWorldEnv)
    (raws : list Z) :
  0 < fst (grid_dimensions self) -> 0 < snd (grid_dimensions self) ->
  initialize_grid_environment self raws <> ValueError.
Proof.
  intros Hw Hh. unfold initialize_grid_environment.
  destruct raws as [| rn raws1]; [discriminate |].
  destruct (randint_some 20 50 rn ltac:(lia)) as [num ->].
  pose proof (place_obstacles_no_error (grid_dimensions self) num raws1 Hw Hh [])
    as Ho.
  destruct (place_obstacles _ _ _ _) as [spots raws2 | |];
    [| contradiction | discriminate].
  pose proof (place_goal_no_error (grid_dimensions self) spots raws2 Hw Hh)
    as Hg.
  destruct (place_goal _ _ _) as [g raws3 | |];
    [| contradiction | discriminate].
  pose proof (place_agent_no_error (grid_dimensions self) spots g raws3 Hw Hh)
    as Ha.
  destruct (place_agent _ _ _ _) as [[ax ay] raws4 | |];
    [discriminate | contradiction | discriminate].
Qed.

Lemma initialize_grid_environment_error (self : GridWorldEnv)
    (rn rx ry : Z) (rest : list Z) :
  fst (grid_dimensions self) <= 0 \/ snd (grid_dimensions self) <= 0 ->
  initialize_grid_environment self (rn :: rx :: ry :: rest) = ValueError.
Proof.
  intros Hdims. unfold initialize_grid_environment.
  destruct (randint 20 50 rn) as [num |] eqn:En; [| reflexivity].
  apply randint_range in En.
  cbn [place_obstacles List.length].
  replace (Z.of_nat 0 <? num) with true by (symmetry; apply Z.ltb_lt; lia).
  unfold randint.
  destruct (fst (grid_dimensions self) - 1 <? 0) eqn:Ew; [reflexivity |].
  apply Z.ltb_ge in Ew.
  replace (snd (grid_dimensions self) - 1 <? 0) with true
    by (symmetry; apply Z.ltb_lt; lia).
  reflexivity.
Qed.

(** X14: given at least five draws and dimensions that are not both
    negative (so that the observation space has a bound [>= 0]), the
    constructor raises [ValueError] exactly when the width or the height
    of the grid is not positive; the second attempt of its handler cannot
    succeed where the first failed. *)
Theorem constructor_raises_iff (dims : Z * Z) (steps_limit : Z)
    (raws : list Z) (Hraws : (5 <= List.length raws)%nat)
    (Hspace : 0 <= Z.max (fst dims) (snd dims)) :
  GridWorldEnv_init dims steps_limit raws = ValueError
  <-> fst dims <= 0 \/ snd dims <= 0.
Proof.
  unfold GridWorldEnv_init. split.
  - intros H.
    destruct (Z_lt_le_dec 0 (fst dims)) as [Hw |]; [| left; assumption].
    destruct (Z_lt_le_dec 0 (snd dims)) as [Hh |]; [| right; assumption].
    exfalso.
    pose proof (initialize_grid_environment_no_error
                  (unplaced dims steps_limit) raws Hw Hh) as H1.
    destruct (initialize_grid_environment (unplaced dims steps_limit) raws);
      [discriminate | contradiction | discriminate].
  - intros Hdims.
    destruct raws as [| r1 [| r2 [| r3 [| r4 [| r5 raws]]]]];
      simpl in Hraws; try lia.
    rewrite (initialize_grid_environment_error (unplaced dims steps_limit)
               r1 r2 r3 (r4 :: r5 :: raws) Hdims).
    destruct (0 <? fst dims); cbn [skipn];
      apply (initialize_grid_environment_error (unplaced dims steps_limit));
      exact Hdims.
Qed.

Lemma constructor_raises_iff_witness :
  (5 <= List.length [0; 1; 2; 3; 4])%nat
  /\ 0 <= Z.max (fst (40, 0)) (snd (40, 0))
  /\ GridWorldEnv_init (40, 0) 100 [0; 1; 2; 3; 4] = ValueError.
Proof.
  assert (H : (5 <= List.length [0; 1; 2; 3; 4])%nat) by (simpl; lia).
  assert (Hs : 0 <= Z.max (fst (40, 0)) (snd (40, 0))) by (simpl; lia).
  split; [exact H |]. split; [exact Hs |].
  apply (proj2 (constructor_raises_iff (40, 0) 100 [0; 1; 2; 3; 4] H Hs)).
  right. simpl. lia.
Defined.

(** ** Scene coordinates with two decimals

    The scene generator rounds every coordinate it draws with
    [round(v, 2)]; the result is the float nearest to [k / 100] for an
    integer [k], which is the quotient of the floats of [k] and 100. *)

Definition two_decimals (k : Z) : float := (float_of_int k / 100)%float.

Definition scene_range : list Z := range (-250) 251.

(** One axis of [move_to_grid] on [k / 100]: inside the scene, rounded to
    a cell of [0..40] whose coordinate is within half a cell, 0.0625, of
    [k / 100] (compared after scaling by 800). *)
Definition axis_snaps (k : Z) : bool :=
  let c := (two_decimals k + 2.5)%float in
  negb (PrimFloat.ltb 5 c || PrimFloat.ltb c 0)
  && match round (c / 0.125)%float with
     | Returned g =>
         (0 <=? g) && (g <=? 40) && (Z.abs (100 * g - 2000 - 8 * k) <=? 50)
     | Raised _ => false
     end.

Lemma axis_snaps_everywhere : forallb axis_snaps scene_range = true.
Proof. vm_compute. reflexivity. Qed.

Lemma axis_snaps_spec (k : Z) :
  -250 <= k <= 250 ->
  PrimFloat.ltb 5 (two_decimals k + 2.5) = false
  /\ PrimFloat.ltb (two_decimals k + 2.5) 0 = false
  /\ exists g, round ((two_decimals k + 2.5) / 0.125)%float = Returned g
               /\ 0 <= g <= 40 /\ Z.abs (100 * g - 2000 - 8 * k) <= 50.
Proof.
  intros Hk. pose proof axis_snaps_everywhere as H.
  rewrite forallb_forall in H.
  specialize (H k ltac:(apply in_range; lia)).
  unfold axis_snaps in H. cbv zeta in H.
  apply andb_true_iff in H. destruct H as [Hin Hround].
  apply negb_true_iff, orb_false_iff in Hin. destruct Hin as [H5 H0].
  split; [exact H5 |]. split; [exact H0 |].
  destruct (round _) as [g | exc]; [| discriminate].
  exists g. split; [reflexivity |].
  rewrite !andb_true_iff in Hround. destruct Hround as [[G0 G40] Gd].
  apply Z.leb_le in G0, G40, Gd. lia.
Qed.

(** X15: on every scene coordinate with two decimals, from -2.50 to 2.50
    on both axes, [move_to_grid] returns a cell (never [None], never an
    exception), and the coordinate of that cell is within half a cell,
    0.0625, of the input on each axis. *)
Theorem move_to_grid_snaps (kx ky : Z)
    (Hx : -250 <= kx <= 250) (Hy : -250 <= ky <= 250) :
  exists gx gy,
    move_to_grid (two_decimals kx) (two_decimals ky) = Returned (Some (gx, gy))
    /\ 0 <= gx <= 40 /\ 0 <= gy <= 40
    /\ Z.abs (100 * gx - 2000 - 8 * kx) <= 50
    /\ Z.abs (100 * gy - 2000 - 8 * ky) <= 50.
Proof.
  destruct (axis_snaps_spec kx Hx) as (X5 & X0 & gx & Xr & Xg & Xd).
  destruct (axis_snaps_spec ky Hy) as (Y5 & Y0 & gy & Yr & Yg & Yd).
  exists gx, gy.
  assert (E : move_to_grid (two_decimals kx) (two_decimals ky)
              = Returned (Some (gx, gy))).
  { unfold move_to_grid. cbv zeta.
    rewrite X5, X0, Y5, Y0, Xr, Yr. cbn [orb].
    replace (gx >? 40) with false
      by (symmetry; rewrite Z.gtb_ltb; apply Z.ltb_ge; lia).
    replace (gx <? 0) with false by (symmetry; apply Z.ltb_ge; lia).
    replace (gy >? 40) with false
      by (symmetry; rewrite Z.gtb_ltb; apply Z.ltb_ge; lia).
    replace (gy <? 0) with false by (symmetry; apply Z.ltb_ge; lia).
    reflexivity. }
  split; [exact E |]. repeat split; lia.
Qed.

Lemma move_to_grid_snaps_witness :
  -250 <= 113 <= 250 /\ -250 <= -250 <= 250
  /\ exists gx gy,
       move_to_grid (two_decimals 113) (two_decimals (-250))
       = Returned (Some (gx, gy))
       /\ 0 <= gx <= 40 /\ 0 <= gy <= 40
       /\ Z.abs (100 * gx - 2000 - 8 * 113) <= 50
       /\ Z.abs (100 * gy - 2000 - 8 * -250) <= 50.
Proof.
  assert (Hx : -250 <= 113 <= 250) by lia.
  assert (Hy : -250 <= -250 <= 250) by lia.
  split; [exact Hx |]. split; [exact Hy |].
  exact (move_to_grid_snaps 113 (-250) Hx Hy).
Defined.

(** ** The placement test on obstacles *)

(** [obstacle_dimensions] of the scene generator, line 835. *)
Definition obstacle_dimensions : vec3 := (0.3, 0.3, 0.8)%float.

(** Two obstacles are apart along an axis when one ends before the other
    begins. *)
Definition axis_apart (a b : float) : bool :=
  PrimFloat.ltb (a + 0.3 / 2) (b - 0.3 / 2)
  || PrimFloat.ltb (b + 0.3 / 2) (a - 0.3 / 2).

Definition axis_inside (a : float) : bool :=
  negb (PrimFloat.ltb 2.5 (a + 0.3 / 2) || PrimFloat.ltb (a - 0.3 / 2) (-2.5)).

Lemma forallb_pointwise {A : Type} (f g : A -> bool) (l : list A) :
  (forall a, f a = g a) -> forallb f l = forallb g l.
Proof.
  intros H. induction l as [| a l IH]; simpl; [reflexivity |].
  rewrite H, IH. reflexivity.
Qed.

Lemma forallb_of_map {A B : Type} (f : A -> B) (p : B -> bool) (l : list A) :
  forallb p (map f l) = forallb (fun a => p (f a)) l.
Proof.
  induction l as [| a l IH]; simpl; [reflexivity |]. rewrite IH. reflexivity.
Qed.

Lemma boxes_apart_axes (ax ay bx by' : float) :
  boxes_apart (ax, ay) obstacle_dimensions (bx, by') obstacle_dimensions
  = axis_apart ax bx || axis_apart ay by'.
Proof.
  unfold boxes_apart, create_bounding_locations, obstacle_dimensions,
    axis_apart. simpl.
  rewrite !orb_assoc. reflexivity.
Qed.

Lemma is_position_valid_axes (ax ay : float) (others : list point2) :
  is_position_valid ax ay obstacle_dimensions others obstacle_dimensions
  = axis_inside ax && axis_inside ay
    && forallb (fun o => axis_apart ax (fst o) || axis_apart ay (snd o)) others.
Proof.
  unfold is_position_valid, obstacle_dimensions, axis_inside.
  destruct (PrimFloat.ltb 2.5 (ax + 0.3 / 2)); [reflexivity |].
  destruct (PrimFloat.ltb (ax - 0.3 / 2) (-2.5)); [reflexivity |].
  destruct (PrimFloat.ltb 2.5 (ay + 0.3 / 2)); [reflexivity |].
  destruct (PrimFloat.ltb (ay - 0.3 / 2) (-2.5)); [reflexivity |].
  simpl. apply forallb_pointwise. intros [bx by'].
  apply (boxes_apart_axes ax ay bx by').
Qed.

(** The two ends of an obstacle centred on [k / 100], along one axis. *)
Definition obstacle_ends (k : Z) : Z * float * float :=
  (k, (two_decimals k + 0.3 / 2)%float, (two_decimals k - 0.3 / 2)%float).

Definition ends_agree (p : (Z * float * float) * (Z * float * float)) : bool :=
  let '((k1, hi1, lo1), (k2, hi2, lo2)) := p in
  let apart := PrimFloat.ltb hi1 lo2 || PrimFloat.ltb hi2 lo1 in
  implb apart (30 <=? Z.abs (k1 - k2))
  && implb (31 <=? Z.abs (k1 - k2)) apart.

Lemma ends_agree_everywhere :
  forallb ends_agree
    (list_prod (map obstacle_ends scene_range) (map obstacle_ends scene_range))
  = true.
Proof. vm_compute. reflexivity. Qed.

Lemma axis_apart_spec (k1 k2 : Z) :
  -250 <= k1 <= 250 -> -250 <= k2 <= 250 ->
  (axis_apart (two_decimals k1) (two_decimals k2) = true ->
   30 <= Z.abs (k1 - k2))
  /\ (31 <= Z.abs (k1 - k2) ->
      axis_apart (two_decimals k1) (two_decimals k2) = true).
Proof.
  intros H1 H2. pose proof ends_agree_everywhere as H.
  rewrite forallb_forall in H.
  specialize (H (obstacle_ends k1, obstacle_ends k2)).
  assert (Hin : In (obstacle_ends k1, obstacle_ends k2)
                   (list_prod (map obstacle_ends scene_range)
                              (map obstacle_ends scene_range))).
  { apply in_prod; apply in_map; apply in_range; lia. }
  specialize (H Hin). unfold ends_agree, obstacle_ends in H.
  fold (axis_apart (two_decimals k1) (two_decimals k2)) in H.
  apply andb_true_iff in H. destruct H as [Ha Hb].
  split.
  - intros E. rewrite E in Ha. simpl in Ha. apply Z.leb_le in Ha. exact Ha.
  - intros E. apply Z.leb_le in E. rewrite E in Hb. exact Hb.
Qed.

Lemma axis_inside_everywhere :
  forallb (fun k => Bool.eqb (axis_inside (two_decimals k))
                             ((-235 <=? k) && (k <=? 235)))
          scene_range = true.
Proof. vm_compute. reflexivity. Qed.

Lemma axis_inside_spec (k : Z) :
  -250 <= k <= 250 ->
  (axis_inside (two_decimals k) = true <-> -235 <= k <= 235).
Proof.
  intros Hk. pose proof axis_inside_everywhere as H.
  rewrite forallb_forall in H.
  specialize (H k ltac:(apply in_range; lia)).
  apply Bool.eqb_prop in H. rewrite H, andb_true_iff, !Z.leb_le. reflexivity.
Qed.

Definition scene_point (c : Z * Z) : point2 :=
  (two_decimals (fst c), two_decimals (snd c)).

Definition in_scene (c : Z * Z) : Prop :=
  -250 <= fst c <= 250 /\ -250 <= snd c <= 250.

(** X16: for obstacles centred on scene coordinates with two decimals, an
    accepted position lies at least 0.15 inside the scene boundary and its
    centre is at least 0.30 away from every placed obstacle along one of
    the axes; a position inside that boundary whose centre is at least
    0.31 away from every placed obstacle along one of the axes is
    accepted. *)
Theorem is_position_valid_obstacles (c : Z * Z) (others : list (Z * Z))
    (Hc : in_scene c) (Hothers : Forall in_scene others) :
  let valid :=
    is_position_valid (two_decimals (fst c)) (two_decimals (snd c))
      obstacle_dimensions (map scene_point others) obstacle_dimensions in
  (valid = true ->
   (-235 <= fst c <= 235 /\ -235 <= snd c <= 235)
   /\ forall o, In o others ->
        30 <= Z.abs (fst c - fst o) \/ 30 <= Z.abs (snd c - snd o))
  /\ ((-235 <= fst c <= 235 /\ -235 <= snd c <= 235) ->
      (forall o, In o others ->
         31 <= Z.abs (fst c - fst o) \/ 31 <= Z.abs (snd c - snd o)) ->
      valid = true).
Proof.
  cbv zeta. rewrite is_position_valid_axes.
  destruct Hc as [Hcx Hcy]. rewrite Forall_forall in Hothers.
  rewrite forallb_of_map. split.
  - intros H. rewrite !andb_true_iff in H. destruct H as [[Ix Iy] Hall].
    apply (axis_inside_spec _ Hcx) in Ix. apply (axis_inside_spec _ Hcy) in Iy.
    split; [split; assumption |].
    intros o Hin. rewrite forallb_forall in Hall. specialize (Hall o Hin).
    destruct (Hothers o Hin) as [Hox Hoy]. simpl in Hall.
    apply orb_true_iff in Hall. destruct Hall as [A | A].
    + left. exact (proj1 (axis_apart_spec _ _ Hcx Hox) A).
    + right. exact (proj1 (axis_apart_spec _ _ Hcy Hoy) A).
  - intros [Ix Iy] Hfar. rewrite !andb_true_iff. split; [split |].
    + apply (axis_inside_spec _ Hcx). exact Ix.
    + apply (axis_inside_spec _ Hcy). exact Iy.
    + apply forallb_forall. intros o Hin.
      destruct (Hothers o Hin) as [Hox Hoy]. simpl.
      apply orb_true_iff.
      destruct (Hfar o Hin) as [F | F].
      * left. exact (proj2 (axis_apart_spec _ _ Hcx Hox) F).
      * right. exact (proj2 (axis_apart_spec _ _ Hcy Hoy) F).
Qed.

Lemma is_position_valid_obstacles_witness :
  in_scene (100, -50)
  /\ Forall in_scene [(60, -50); (100, 120)]
  /\ is_position_valid (two_decimals 100) (two_decimals (-50))
       obstacle_dimensions (map scene_point [(60, -50); (100, 120)])
       obstacle_dimensions = true.
Proof.
  assert (Hc : in_scene (100, -50)) by (unfold in_scene; simpl; lia).
  assert (Ho : Forall in_scene [(60, -50); (100, 120)])
    by (repeat constructor; simpl; lia).
  split; [exact Hc |]. split; [exact Ho |].
  apply (proj2 (is_position_valid_obstacles (100, -50)
                  [(60, -50); (100, 120)] Hc Ho)).
  - simpl. lia.
  - intros o [<- | [<- | []]]; simpl; lia.
Defined.

(** ** Tangents and degenerate paths *)

Lemma zero_div_positive (n : float) :
  PrimFloat.ltb 0 n = true -> (0 / n)%float = 0%float.
Proof.
  intros H. apply Prim2SF_inj. rewrite div_spec. rewrite ltb_spec in H.
  change (Prim2SF 0) with (S754_zero false) in *.
  unfold SF64div. unfold SFltb in H.
  destruct (Prim2SF n) as [s | s | | s m e]; simpl in H; try discriminate H;
    destruct s; try discriminate H; reflexivity.
Qed.

Lemma norm_of_zero : norm (0, 0, 0)%float = 0%float.
Proof. vm_compute. reflexivity. Qed.

(** X17: with a finite [initial_z] the tangent that
    [get_point_and_tangent] returns has no vertical part, for every list
    of control points and every parameter, and the point has height
    [initial_z]; at the end of the curve, [t = 1], the tangent of a finite
    point is the zero vector. *)
Theorem tangent_is_planar (comb : Z -> Z -> float)
    (power : float -> Z -> float) (initial_z : float)
    (ctrl_points : list float) (t : float)
    (Hz : is_finite initial_z = true) :
  let result := get_point_and_tangent comb power initial_z t ctrl_points in
  let at_end := get_point_and_tangent comb power initial_z 1 ctrl_points in
  snd (fst result) = initial_z
  /\ snd (snd result) = 0%float
  /\ (is_finite (fst (fst (fst at_end))) = true ->
      is_finite (snd (fst (fst at_end))) = true ->
      snd at_end = (0, 0, 0)%float).
Proof.
  cbv zeta. unfold get_point_and_tangent. cbv zeta.
  split; [apply bezier_recursive_height |]. split.
  - pose proof (bezier_recursive_height comb power initial_z ctrl_points t)
      as Hp.
    pose proof (bezier_recursive_height comb power initial_z ctrl_points
                  (float_min 1.0 (t + 0.001))) as Hq.
    destruct (bezier_recursive comb power initial_z ctrl_points t)
      as [[p0 p1] p2].
    destruct (bezier_recursive comb power initial_z ctrl_points
                (float_min 1.0 (t + 0.001))) as [[q0 q1] q2].
    simpl in Hp, Hq. subst p2 q2. cbn [vsub snd].
    rewrite (sub_self_finite initial_z Hz).
    destruct (PrimFloat.ltb 0 _) eqn:E; cbn [vdiv snd]; [| reflexivity].
    apply zero_div_positive. exact E.
  - change (float_min 1.0 (1 + 0.001)) with 1%float.
    pose proof (bezier_recursive_height comb power initial_z ctrl_points 1)
      as Hp.
    destruct (bezier_recursive comb power initial_z ctrl_points 1)
      as [[p0 p1] p2].
    simpl in Hp. subst p2. cbn [fst snd vsub]. intros H0 H1.
    rewrite (sub_self_finite p0 H0), (sub_self_finite p1 H1),
      (sub_self_finite initial_z Hz).
    rewrite norm_of_zero. reflexivity.
Qed.

Lemma tangent_is_planar_witness :
  is_finite 0.12 = true
  /\ snd (snd (get_point_and_tangent comb_upto_1 power_upto_1 0.12 0.25
                 (two_points 0 0 0 1 0 0 0 1))) = 0%float
  /\ snd (get_point_and_tangent comb_upto_1 power_upto_1 0.12 1
            (two_points 0 0 0 1 0 0 0 1)) = (0, 0, 0)%float.
Proof.
  assert (Hz : is_finite 0.12 = true) by reflexivity.
  pose proof (tangent_is_planar comb_upto_1 power_upto_1 0.12
                (two_points 0 0 0 1 0 0 0 1) 0.25 Hz) as H.
  cbv zeta in H.
  split; [exact Hz |]. split; [exact (proj1 (proj2 H)) |].
  apply (proj2 (proj2 H)); reflexivity.
Defined.

Lemma bezier_recursive_short (comb : Z -> Z -> float)
    (power : float -> Z -> float) (initial_z : float)
    (ctrlPts : list float) (t : float) :
  (List.length ctrlPts < 7)%nat ->
  bezier_recursive comb power initial_z ctrlPts t = (0, 0, initial_z)%float.
Proof.
  intros Hshort. unfold bezier_recursive.
  rewrite Z.div_small by lia. reflexivity.
Qed.

Lemma length_term_short (comb : Z -> Z -> float)
    (power : float -> Z -> float) (initial_z : float)
    (ctrl_points : list float) (subdivisions i : Z) :
  (List.length ctrl_points < 7)%nat -> is_finite initial_z = true ->
  length_term comb power initial_z ctrl_points subdivisions
    (0%float, (0, 0, initial_z)%float) i
  = (0%float, (0, 0, initial_z)%float).
Proof.
  intros Hshort Hz. unfold length_term.
  rewrite (bezier_recursive_short _ _ _ _ _ Hshort). cbn [vsub].
  rewrite (sub_self_finite initial_z Hz).
  change (0 - 0)%float with 0%float. rewrite norm_of_zero. reflexivity.
Qed.

(** X18: a list with fewer than seven entries holds no control point: the
    curve is the single point [(0, 0, initial_z)] and, for a finite
    [initial_z], its length is 0.0 for every number of subdivisions; and
    with no subdivision at all the length of any path is 0.0. *)
Theorem short_paths_have_no_length (comb : Z -> Z -> float)
    (power : float -> Z -> float) (initial_z : float)
    (Hz : is_finite initial_z = true) :
  (forall ctrl_points, (List.length ctrl_points < 7)%nat ->
     (forall t, bezier_recursive comb power initial_z ctrl_points t
                = (0, 0, initial_z)%float)
     /\ forall subdivisions,
          calculate_total_length comb power initial_z ctrl_points subdivisions
          = 0%float)
  /\ (forall ctrl_points subdivisions, subdivisions <= 0 ->
        calculate_total_length comb power initial_z ctrl_points subdivisions
        = 0%float).
Proof.
  split.
  - intros ctrl_points Hshort.
    split; [intros t; apply bezier_recursive_short; exact Hshort |].
    intros subdivisions. unfold calculate_total_length.
    rewrite (bezier_recursive_short _ _ _ _ _ Hshort).
    induction (range 1 (subdivisions + 1)) as [| i l IH]; [reflexivity |].
    cbn [fold_left]. rewrite (length_term_short _ _ _ _ _ _ Hshort Hz).
    exact IH.
  - intros ctrl_points subdivisions Hnone. unfold calculate_total_length, range.
    replace (Z.to_nat (subdivisions + 1 - 1)) with 0%nat by lia. reflexivity.
Qed.

Lemma short_paths_have_no_length_witness :
  is_finite 0.12 = true
  /\ calculate_total_length comb_upto_1 power_upto_1 0.12 [1; 2; 3]%float 1000
     = 0%float
  /\ calculate_total_length comb_upto_1 power_upto_1 0.12
       (two_points 0 0 0 1 0 0 0 1) 0 = 0%float.
Proof.
  assert (Hz : is_finite 0.12 = true) by reflexivity.
  pose proof (short_paths_have_no_length comb_upto_1 power_upto_1 0.12 Hz)
    as H.
  split; [exact Hz |]. split.
  - apply (proj1 H). simpl. lia.
  - apply (proj2 H). lia.
Defined.

(** ** The control points kept between steps *)

Definition seven_each (ctrlPts : list (list float)) : Prop :=
  Forall (fun point => List.length point = 7%nat) ctrlPts.

Lemma flattened_length (ctrlPts : list (list float)) :
  seven_each ctrlPts ->
  List.length (flattened ctrlPts) = (7 * List.length ctrlPts)%nat.
Proof.
  unfold flattened. induction 1 as [| p l Hp Hl IH]; [reflexivity |].
  simpl. rewrite length_app, Hp, IH. lia.
Qed.

(** X19: when the list holds one or two points of seven entries and the
    agent's cell has coordinates, the simulator block follows a path of
    one point more, so of two or three control points, and keeps exactly
    two points: the last one it had, then the new one.  The next path
    starts where this one ended. *)
Theorem extend_path_keeps_two (ctrlPts : list (list float))
    (self : GridWorldEnv) (action : Z)
    (Hcount : (1 <= List.length ctrlPts <= 2)%nat)
    (Hshape : seven_each ctrlPts)
    (Hx : 0 <= x self <= 40) (Hy : 0 <= y self <= 40) :
  exists new_coords,
    grid_to_coordinates (x self) (y self) = Some new_coords
    /\ fst (extend_path ctrlPts self action)
       = [last ctrlPts []; new_control_point new_coords action]
    /\ seven_each (fst (extend_path ctrlPts self action))
    /\ List.length (snd (extend_path ctrlPts self action))
       = (7 * (List.length ctrlPts + 1))%nat
    /\ 1 <= Z.of_nat (List.length (snd (extend_path ctrlPts self action))) / 7 - 1
       <= 2.
Proof.
  unfold extend_path.
  destruct (grid_to_coordinates (x self) (y self)) as [new_coords |] eqn:E.
  2:{ unfold grid_to_coordinates in E.
      replace (x self >? 40) with false in E
        by (symmetry; rewrite Z.gtb_ltb; apply Z.ltb_ge; lia).
      replace (x self <? 0) with false in E by (symmetry; apply Z.ltb_ge; lia).
      replace (y self >? 40) with false in E
        by (symmetry; rewrite Z.gtb_ltb; apply Z.ltb_ge; lia).
      replace (y self <? 0) with false in E by (symmetry; apply Z.ltb_ge; lia).
      discriminate E. }
  exists new_coords. split; [reflexivity |]. cbn [fst snd].
  assert (Hnew : List.length (new_control_point new_coords action) = 7%nat).
  { unfold new_control_point. destruct new_coords as [[cx cy] cz].
    destruct (curve_offset action). reflexivity. }
  assert (Happ : seven_each (ctrlPts ++ [new_control_point new_coords action])).
  { apply Forall_app. split; [exact Hshape | repeat constructor; exact Hnew]. }
  assert (Hkept : keep_last_two (ctrlPts ++ [new_control_point new_coords action])
                  = [last ctrlPts []; new_control_point new_coords action]).
  { destruct ctrlPts as [| p [| q [| r l]]]; simpl in Hcount; try lia;
      reflexivity. }
  rewrite Hkept, (flattened_length _ Happ), length_app. simpl List.length.
  split; [reflexivity |].
  split.
  { repeat constructor; [| exact Hnew].
    destruct ctrlPts as [| p [| q [| r l]]]; simpl in Hcount; try lia;
      inversion Hshape as [| ? ? Hp Hrest]; subst; simpl;
      [exact Hp | inversion Hrest; assumption]. }
  split; [reflexivity |].
  destruct ctrlPts as [| p [| q [| r l]]]; simpl in Hcount; try lia;
    vm_compute; split; discriminate.
Qed.

(** The control points after [initialize_path_following] in the middle of
    the scene. *)
Definition first_control_points : list (list float) :=
  [[0; 0; 0.05; 0.0; 0.0; 0.0; 1.0]%float].

Lemma extend_path_keeps_two_witness :
  (1 <= List.length first_control_points <= 2)%nat
  /\ seven_each first_control_points
  /\ 0 <= x demo_env <= 40 /\ 0 <= y demo_env <= 40
  /\ exists new_coords,
       grid_to_coordinates (x demo_env) (y demo_env) = Some new_coords
       /\ fst (extend_path first_control_points demo_env UP)
          = [last first_control_points []; new_control_point new_coords UP].
Proof.
  assert (Hcount : (1 <= List.length first_control_points <= 2)%nat)
    by (simpl; lia).
  assert (Hshape : seven_each first_control_points)
    by (repeat constructor).
  assert (Hx : 0 <= x demo_env <= 40) by (simpl; lia).
  assert (Hy : 0 <= y demo_env <= 40) by (simpl; lia).
  destruct (extend_path_keeps_two first_control_points demo_env UP
              Hcount Hshape Hx Hy) as [new_coords [E [K _]]].
  split; [exact Hcount |]. split; [exact Hshape |].
  split; [exact Hx |]. split; [exact Hy |].
  exists new_coords. split; [exact E | exact K].
Defined.
